(** * AillioR1Demo: the roaster interface of [aillio.py]

    A shallow embedding of class [AillioR1Demo]: the object's fields as a
    record, its methods as computations in a small state-and-exception monad
    that also records the USB traffic, and the Python values the methods
    compute with (int, float, byte arrays) as data. *)

From Stdlib Require Import ZArith NArith Lia String Floats.SpecFloat.
From Stdlib Require Strings.Byte.
From stdpp Require Import base tactics option list.

Local Open Scope Z_scope.

(** ** Python numbers *)

(** A Python [float] is an IEEE 754 binary64 value. *)
Abbreviation float := spec_float.

Definition prec64 : Z := 53.
Definition emax64 : Z := 1024.

(** The binary64 value [m * 2^e]. *)
Definition float_of_scaled (m e : Z) : float :=
  binary_normalize prec64 emax64 m e false.

Definition float_of_Z (z : Z) : float := float_of_scaled z 0.

Definition fsub (x y : float) : float := SFsub prec64 emax64 x y.
Definition flt (x y : float) : bool := SFltb x y.

(** The values a numeric attribute of the object can hold: the constructor
    stores float literals ([0.0], [1.0]); the decoder and the setters store
    ints. *)
Inductive pynum :=
  | PyInt (z : Z)
  | PyFloat (f : float).

(** Exceptions the modelled code can raise. *)
Inductive exn :=
  | ValueError
  | OverflowError
  | IndexError
  | StructError.

Definition signed (s : bool) (z : Z) : Z := if s then - z else z.

(** [int(x)]: the identity on ints; on floats truncation toward zero,
    [ValueError] on NaN and [OverflowError] on an infinity. *)
Definition py_int (x : pynum) : exn + Z :=
  match x with
  | PyInt z => inr z
  | PyFloat (S754_zero _) => inr 0
  | PyFloat (S754_infinity _) => inl OverflowError
  | PyFloat S754_nan => inl ValueError
  | PyFloat (S754_finite s m e) =>
      inr (signed s (if 0 <=? e then Z.pos m * 2 ^ e
                     else Z.pos m / 2 ^ (- e)))
  end.

(** [x == z] for an int [z]: Python compares the exact values. *)
Definition py_eqZ (x : pynum) (z : Z) : bool :=
  match x with
  | PyInt y => y =? z
  | PyFloat (S754_zero _) => z =? 0
  | PyFloat (S754_finite s m e) =>
      if 0 <=? e then signed s (Z.pos m * 2 ^ e) =? z
      else (Z.pos m mod 2 ^ (- e) =? 0) && (signed s (Z.pos m / 2 ^ (- e)) =? z)
  | PyFloat _ => false
  end.

(** [lo <= x <= hi] for int bounds, again on exact values. *)
Definition py_between (lo hi : Z) (x : pynum) : bool :=
  match x with
  | PyInt y => (lo <=? y) && (y <=? hi)
  | PyFloat f => SFleb (float_of_Z lo) f && SFleb f (float_of_Z hi)
  end.

(** [round(x, 1)] on a float: the decimal with one fractional digit nearest
    to the exact value of [x] (ties to the even digit), then the binary64
    nearest to that decimal; zeros, infinities and NaN round to themselves. *)
Definition round_half_even (n d : Z) : Z :=
  let q := n / d in
  let r := n mod d in
  match 2 * r ?= d with
  | Lt => q
  | Gt => q + 1
  | Eq => if Z.even q then q else q + 1
  end.

Definition round1 (x : float) : float :=
  match x with
  | S754_finite s m e =>
      if 0 <=? e then x
      else
        let tenths := round_half_even (10 * Z.pos m) (2 ^ (- e)) in
        if tenths =? 0 then S754_zero s
        else
          let '(mz, ez, lz) := SFdiv_core_binary prec64 emax64 tenths 0 10 0 in
          binary_round_aux prec64 emax64 s mz ez lz
  | _ => x
  end.

(** ** Bytes and [struct.unpack] *)

Abbreviation byte := Byte.byte.

Definition byte_val (b : byte) : Z := Z.of_N (Byte.to_N b).

(** [unpack] without a prefix reads in the byte order of the host. *)
Inductive byteorder := LittleEndian | BigEndian.

Class Host := { native : byteorder }.

Definition in_native_order `{Host} (bs : list byte) : list byte :=
  match native with
  | LittleEndian => bs
  | BigEndian => reverse bs
  end.

(** The unsigned number whose little-endian digits are [bs]. *)
Fixpoint le_uint (bs : list byte) : Z :=
  match bs with
  | [] => 0
  | b :: bs' => byte_val b + 256 * le_uint bs'
  end.

(** The binary32 value with bit pattern [bits], as the float Python holds:
    every binary32 value is a binary64 value. *)
Definition float_of_bits32 (bits : Z) : float :=
  let s := Z.testbit bits 31 in
  let ex := Z.land (Z.shiftr bits 23) 255 in
  let frac := Z.land bits 8388607 in
  if ex =? 255 then
    (if frac =? 0 then S754_infinity s else S754_nan)
  else if ex =? 0 then
    (if frac =? 0 then S754_zero s
     else float_of_scaled (signed s frac) (- 149))
  else float_of_scaled (signed s (8388608 + frac)) (ex - 150).

(** The two's-complement reading of a 16-bit pattern. *)
Definition int16_of_bits (bits : Z) : Z :=
  if bits <? 32768 then bits else bits - 65536.

(** [unpack('f', bs)[0]] and [unpack('h', bs)[0]]: [struct.error] unless
    [bs] has exactly the size of the format. *)
Definition unpack_f `{Host} (bs : list byte) : exn + float :=
  if (length bs =? 4)%nat
  then inr (float_of_bits32 (le_uint (in_native_order bs)))
  else inl StructError.

Definition unpack_h `{Host} (bs : list byte) : exn + Z :=
  if (length bs =? 2)%nat
  then inr (int16_of_bits (le_uint (in_native_order bs)))
  else inl StructError.

(** [a[i]] and [a[i:j]] on a byte array, for indices that are not negative. *)
Definition index (a : list byte) (i : nat) : exn + byte :=
  match a !! i with
  | Some b => inr b
  | None => inl IndexError
  end.

Definition slice (a : list byte) (i j : nat) : list byte :=
  take (j - i) (drop i a).

(** ** The object and its surroundings *)

Definition command := list Z.

Definition AILLIO_ENDPOINT_WR : Z := 0x3.
Definition AILLIO_ENDPOINT_RD : Z := 0x81.

Definition AILLIO_CMD_STATUS1 : command := [0x30; 0x01].
Definition AILLIO_CMD_STATUS2 : command := [0x30; 0x03].
Definition AILLIO_CMD_HEATER_INCR : command := [0x34; 0x01; 0xaa; 0xaa].
Definition AILLIO_CMD_HEATER_DECR : command := [0x34; 0x02; 0xaa; 0xaa].
Definition AILLIO_CMD_FAN_INCR : command := [0x31; 0x01; 0xaa; 0xaa].
Definition AILLIO_CMD_FAN_DECR : command := [0x31; 0x02; 0xaa; 0xaa].

Definition AILLIO_STATE_OFF : Z := 0x00.
Definition AILLIO_STATE_PH : Z := 0x02.
Definition AILLIO_STATE_CHARGE : Z := 0x04.
Definition AILLIO_STATE_ROASTING : Z := 0x06.
Definition AILLIO_STATE_COOLING : Z := 0x08.
Definition AILLIO_STATE_SHUTDOWN : Z := 0x09.

(** An open USB handle, seen from the methods: the outcomes of the reads
    still to come, in order. [Some data] is what the endpoint delivers,
    [None] a read that raises; once the list is used up every read raises
    (the read times out). A write can raise too, but [_send_command] catches
    that and only logs it, so a raising write and a successful one leave the
    object in the same state. *)
Definition usb_device := list (option (list byte)).

Record AillioR1Demo := {
  usbhandle : option usb_device;
  bt : float;
  dt : float;
  bt_ror : float;
  fan_rpm : pynum;
  voltage : pynum;
  heater : pynum;
  fan : pynum;
  drum : pynum;
  state : Z;
  state_str : string;
  roast_number : Z;
  command_queue : list command;
  last_status_update : float;
  status_update_interval : float
}.

(** What the methods do to the outside: calls of [usbhandle.write] and
    [usbhandle.read], and [time.sleep]. Debug printing is left out. *)
Inductive io_event :=
  | UsbWrite (endpoint : Z) (data : command)
  | UsbRead (endpoint : Z) (size : nat)
  | Sleep (seconds : float).

Record world := {
  self : AillioR1Demo;
  wire : list io_event
}.

(** Attribute assignment. *)
Definition with_usbhandle (v : option usb_device) (o : AillioR1Demo) :=
  {| usbhandle := v; bt := bt o; dt := dt o; bt_ror := bt_ror o;
     fan_rpm := fan_rpm o; voltage := voltage o; heater := heater o;
     fan := fan o; drum := drum o; state := state o; state_str := state_str o;
     roast_number := roast_number o; command_queue := command_queue o;
     last_status_update := last_status_update o;
     status_update_interval := status_update_interval o |}.

Definition with_bt (v : float) (o : AillioR1Demo) :=
  {| usbhandle := usbhandle o; bt := v; dt := dt o; bt_ror := bt_ror o;
     fan_rpm := fan_rpm o; voltage := voltage o; heater := heater o; fan
     := fan o; drum := drum o; state := state o; state_str := state_str o;
     roast_number := roast_number o; command_queue := command_queue o;
     last_status_update := last_status_update o; status_update_interval :=
     status_update_interval o |}.

Definition with_dt (v : float) (o : AillioR1Demo) :=
  {| usbhandle := usbhandle o; bt := bt o; dt := v; bt_ror := bt_ror o;
     fan_rpm := fan_rpm o; voltage := voltage o; heater := heater o; fan
     := fan o; drum := drum o; state := state o; state_str := state_str o;
     roast_number := roast_number o; command_queue := command_queue o;
     last_status_update := last_status_update o; status_update_interval :=
     status_update_interval o |}.

Definition with_bt_ror (v : float) (o : AillioR1Demo) :=
  {| usbhandle := usbhandle o; bt := bt o; dt := dt o; bt_ror := v;
     fan_rpm := fan_rpm o; voltage := voltage o; heater := heater o; fan
     := fan o; drum := drum o; state := state o; state_str := state_str o;
     roast_number := roast_number o; command_queue := command_queue o;
     last_status_update := last_status_update o; status_update_interval :=
     status_update_interval o |}.

Definition with_fan_rpm (v : pynum) (o : AillioR1Demo) :=
  {| usbhandle := usbhandle o; bt := bt o; dt := dt o; bt_ror := bt_ror o;
     fan_rpm := v; voltage := voltage o; heater := heater o; fan := fan o;
     drum := drum o; state := state o; state_str := state_str o;
     roast_number := roast_number o; command_queue := command_queue o;
     last_status_update := last_status_update o; status_update_interval :=
     status_update_interval o |}.

Definition with_voltage (v : pynum) (o : AillioR1Demo) :=
  {| usbhandle := usbhandle o; bt := bt o; dt := dt o; bt_ror := bt_ror o;
     fan_rpm := fan_rpm o; voltage := v; heater := heater o; fan := fan o;
     drum := drum o; state := state o; state_str := state_str o;
     roast_number := roast_number o; command_queue := command_queue o;
     last_status_update := last_status_update o; status_update_interval :=
     status_update_interval o |}.

Definition with_heater (v : pynum) (o : AillioR1Demo) :=
  {| usbhandle := usbhandle o; bt := bt o; dt := dt o; bt_ror := bt_ror o;
     fan_rpm := fan_rpm o; voltage := voltage o; heater := v; fan := fan
     o; drum := drum o; state := state o; state_str := state_str o;
     roast_number := roast_number o; command_queue := command_queue o;
     last_status_update := last_status_update o; status_update_interval :=
     status_update_interval o |}.

Definition with_fan (v : pynum) (o : AillioR1Demo) :=
  {| usbhandle := usbhandle o; bt := bt o; dt := dt o; bt_ror := bt_ror o;
     fan_rpm := fan_rpm o; voltage := voltage o; heater := heater o; fan
     := v; drum := drum o; state := state o; state_str := state_str o;
     roast_number := roast_number o; command_queue := command_queue o;
     last_status_update := last_status_update o; status_update_interval :=
     status_update_interval o |}.

Definition with_drum (v : pynum) (o : AillioR1Demo) :=
  {| usbhandle := usbhandle o; bt := bt o; dt := dt o; bt_ror := bt_ror o;
     fan_rpm := fan_rpm o; voltage := voltage o; heater := heater o; fan
     := fan o; drum := v; state := state o; state_str := state_str o;
     roast_number := roast_number o; command_queue := command_queue o;
     last_status_update := last_status_update o; status_update_interval :=
     status_update_interval o |}.

Definition with_state (v : Z) (o : AillioR1Demo) :=
  {| usbhandle := usbhandle o; bt := bt o; dt := dt o; bt_ror := bt_ror o;
     fan_rpm := fan_rpm o; voltage := voltage o; heater := heater o; fan
     := fan o; drum := drum o; state := v; state_str := state_str o;
     roast_number := roast_number o; command_queue := command_queue o;
     last_status_update := last_status_update o; status_update_interval :=
     status_update_interval o |}.

Definition with_state_str (v : string) (o : AillioR1Demo) :=
  {| usbhandle := usbhandle o; bt := bt o; dt := dt o; bt_ror := bt_ror o;
     fan_rpm := fan_rpm o; voltage := voltage o; heater := heater o; fan
     := fan o; drum := drum o; state := state o; state_str := v;
     roast_number := roast_number o; command_queue := command_queue o;
     last_status_update := last_status_update o; status_update_interval :=
     status_update_interval o |}.

Definition with_roast_number (v : Z) (o : AillioR1Demo) :=
  {| usbhandle := usbhandle o; bt := bt o; dt := dt o; bt_ror := bt_ror o;
     fan_rpm := fan_rpm o; voltage := voltage o; heater := heater o; fan
     := fan o; drum := drum o; state := state o; state_str := state_str o;
     roast_number := v; command_queue := command_queue o;
     last_status_update := last_status_update o; status_update_interval :=
     status_update_interval o |}.

Definition with_command_queue (v : list command) (o : AillioR1Demo) :=
  {| usbhandle := usbhandle o; bt := bt o; dt := dt o; bt_ror := bt_ror o;
     fan_rpm := fan_rpm o; voltage := voltage o; heater := heater o; fan
     := fan o; drum := drum o; state := state o; state_str := state_str o;
     roast_number := roast_number o; command_queue := v;
     last_status_update := last_status_update o; status_update_interval :=
     status_update_interval o |}.

Definition with_last_status_update (v : float) (o : AillioR1Demo) :=
  {| usbhandle := usbhandle o; bt := bt o; dt := dt o; bt_ror := bt_ror o;
     fan_rpm := fan_rpm o; voltage := voltage o; heater := heater o; fan
     := fan o; drum := drum o; state := state o; state_str := state_str o;
     roast_number := roast_number o; command_queue := command_queue o;
     last_status_update := v; status_update_interval :=
     status_update_interval o |}.

(** ** Computations: state, exceptions, recorded I/O *)

Definition M (A : Type) : Type := world → (exn + A) * world.

#[global] Instance M_ret : MRet M := λ A x w, (inr x, w).

#[global] Instance M_bind : MBind M := λ A B k m w,
  match m w with
  | (inr x, w') => k x w'
  | (inl e, w') => (inl e, w')
  end.

Definition raise {A} (e : exn) : M A := λ w, (inl e, w).

Definition lift {A} (r : exn + A) : M A :=
  match r with
  | inl e => raise e
  | inr x => mret x
  end.

Definition get_self : M AillioR1Demo := λ w, (inr (self w), w).

Definition assign (f : AillioR1Demo → AillioR1Demo) : M unit :=
  λ w, (inr tt, {| self := f (self w); wire := wire w |}).

Definition emit (ev : io_event) : M unit :=
  λ w, (inr tt, {| self := self w; wire := wire w ++ [ev] |}).

(** [try: body / except Exception: handler]. *)
Definition try_except {A} (body : M A) (handler : exn → M A) : M A :=
  λ w,
    match body w with
    | (inl e, w') => handler e w'
    | r => r
    end.

(** [for _ in range(n): body]. *)
Fixpoint for_range (n : nat) (body : M unit) : M unit :=
  match n with
  | O => mret tt
  | S n' => body;; for_range n' body
  end.

(** ** The methods *)

(** [__init__]: the attribute values of a new object. *)
Definition __init__ : AillioR1Demo :=
  {| usbhandle := None;
     bt := S754_zero false;
     dt := S754_zero false;
     bt_ror := S754_zero false;
     fan_rpm := PyFloat (S754_zero false);
     voltage := PyFloat (S754_zero false);
     heater := PyFloat (S754_zero false);
     fan := PyFloat (float_of_Z 1);
     drum := PyFloat (float_of_Z 1);
     state := AILLIO_STATE_OFF;
     state_str := "off";
     roast_number := -1;
     command_queue := [];
     last_status_update := S754_zero false;
     status_update_interval := float_of_scaled 7205759403792794 (-56) |}.

(** [_send_command]: with no handle nothing happens; with one, the write is
    attempted and an exception from it is caught. *)
Definition _send_command (cmd : command) : M unit :=
  o ← get_self;
  match usbhandle o with
  | Some _ => emit (UsbWrite AILLIO_ENDPOINT_WR cmd)
  | None => mret tt
  end.

(** [usbhandle.read(endpoint, len)]: the next outcome of the handle and the
    handle afterwards. The endpoint delivers at most [len] bytes; [None]
    stands for a read that raises. *)
Definition usb_read (dev : usb_device) (len : nat)
  : option (list byte) * usb_device :=
  match dev with
  | Some data :: rest => (Some (take len data), rest)
  | None :: rest => (None, rest)
  | [] => (None, [])
  end.

(** [_read_reply]: [None] with no handle or when the read raises. *)
Definition _read_reply (len : nat) : M (option (list byte)) :=
  o ← get_self;
  match usbhandle o with
  | Some dev =>
      emit (UsbRead AILLIO_ENDPOINT_RD len);;
      assign (with_usbhandle (Some (usb_read dev len).2));;
      mret (usb_read dev len).1
  | None => mret None
  end.

(** [deque.popleft] and [deque.append] on [self.command_queue]. *)
Definition popleft : M command :=
  o ← get_self;
  match command_queue o with
  | [] => raise IndexError
  | cmd :: rest => assign (with_command_queue rest);; mret cmd
  end.

Definition append (cmd : command) : M unit :=
  o ← get_self;
  assign (with_command_queue (command_queue o ++ [cmd])).

(** The literal [0.01]. *)
Definition settle_delay : float := float_of_scaled 5764607523034235 (-59).

Definition _process_command_queue : M unit :=
  o ← get_self;
  if bool_decide (command_queue o = []) then mret tt
  else
    o ← get_self;
    if bool_decide (command_queue o = []) then mret tt
    else
      cmd ← popleft;
      _send_command cmd;;
      emit (Sleep settle_delay).

Definition _update_state_string : M unit :=
  o ← get_self;
  if state o =? AILLIO_STATE_OFF then assign (with_state_str "off")
  else if state o =? AILLIO_STATE_PH then assign (with_state_str "pre-heating")
  else if state o =? AILLIO_STATE_CHARGE then assign (with_state_str "charge")
  else if state o =? AILLIO_STATE_ROASTING then assign (with_state_str "roasting")
  else if state o =? AILLIO_STATE_COOLING then assign (with_state_str "cooling")
  else if state o =? AILLIO_STATE_SHUTDOWN then assign (with_state_str "shutdown")
  else mret tt.

(** The truth value of a reply: [None] and the empty array are false. *)
Definition truthy (reply : option (list byte)) : bool :=
  match reply with
  | Some (_ :: _) => true
  | _ => false
  end.

(** The body of the [try] in [_update_status], in two parts. First the two
    requests and their replies. *)
Definition status_round_trip : M (option (list byte) * option (list byte)) :=
  _send_command AILLIO_CMD_STATUS1;;
  state1 ← _read_reply 64;
  _send_command AILLIO_CMD_STATUS2;;
  state2 ← _read_reply 64;
  mret (state1, state2).

(** Then the decoding of the replies: [Some b] when it leaves the method
    through [return b], [None] when control reaches the end of the [try]. *)
Definition parse_status `{Host} (state1 state2 : option (list byte))
  : M (option bool) :=
  if truthy state1 && truthy state2 then
    let state := default [] state1 ++ default [] state2 in
    valid ← lift (index state 41);
    if byte_val valid =? 10 then
      x ← lift (unpack_f (slice state 36 40));
      assign (with_bt (round1 x));;
      x ← lift (unpack_f (slice state 4 8));
      assign (with_bt_ror (round1 x));;
      x ← lift (unpack_f (slice state 8 12));
      assign (with_dt (round1 x));;
      b ← lift (index state 26);
      assign (with_fan (PyInt (byte_val b)));;
      b ← lift (index state 27);
      assign (with_heater (PyInt (byte_val b)));;
      b ← lift (index state 28);
      assign (with_drum (PyInt (byte_val b)));;
      b ← lift (index state 29);
      assign (with_state (byte_val b));;
      z ← lift (unpack_h (slice state 44 46));
      assign (with_fan_rpm (PyInt z));;
      z ← lift (unpack_h (slice state 48 50));
      assign (with_voltage (PyInt z));;
      _update_state_string;;
      mret (Some true)
    else mret None
  else mret None.

Definition _update_status_try `{Host} : M (option bool) :=
  '(state1, state2) ← status_round_trip;
  parse_status state1 state2.

(** [_update_status], with the reading of [time.time()] as its argument. *)
Definition _update_status `{Host} (current_time : float) : M bool :=
  o ← get_self;
  if flt (fsub current_time (last_status_update o)) (status_update_interval o)
  then mret false
  else
    assign (with_last_status_update current_time);;
    r ← try_except _update_status_try (λ _, mret None);
    match r with
    | Some b => mret b
    | None => mret false
    end.

Definition update_readings `{Host} (current_time : float) : M bool :=
  _process_command_queue;;
  _update_status current_time.

(** [max(lo, min(hi, v))]. *)
Definition clamp (lo hi v : Z) : Z := Z.max lo (Z.min hi v).

Definition set_heater (value : pynum) : M unit :=
  v ← lift (py_int value);
  let value := clamp 0 9 v in
  o ← get_self;
  current ← lift (py_int (heater o));
  let diff := Z.abs (current - value) in
  if diff =? 0 then mret tt
  else
    (if current >? value
     then for_range (Z.to_nat diff) (append AILLIO_CMD_HEATER_DECR)
     else for_range (Z.to_nat diff) (append AILLIO_CMD_HEATER_INCR));;
    assign (with_heater (PyInt value)).

Definition set_fan (value : pynum) : M unit :=
  v ← lift (py_int value);
  let value := clamp 1 12 v in
  o ← get_self;
  current ← lift (py_int (fan o));
  let diff := Z.abs (current - value) in
  if diff =? 0 then mret tt
  else
    (if current >? value
     then for_range (Z.to_nat diff) (append AILLIO_CMD_FAN_DECR)
     else for_range (Z.to_nat diff) (append AILLIO_CMD_FAN_INCR));;
    assign (with_fan (PyInt value)).

Definition set_drum (value : pynum) : M unit :=
  v ← lift (py_int value);
  let value := clamp 1 9 v in
  append [0x32; 0x01; value; 0x00];;
  assign (with_drum (PyInt value)).

(** ** Vocabulary of the statements *)

(** The world a computation leaves behind, and what it returns or raises. *)
Definition after {A} (m : M A) (w : world) : world := (m w).2.
Definition outcome {A} (m : M A) (w : world) : exn + A := (m w).1.

(** The Status Model: the attributes the decoder writes. *)
Definition status_model (o : AillioR1Demo) :=
  (bt o, bt_ror o, dt o, fan o, heater o, drum o, state o, state_str o,
   fan_rpm o, voltage o).

(** The documented ranges of the three setpoints. *)
Definition setpoints_in_range (o : AillioR1Demo) : Prop :=
  py_between 0 9 (heater o) = true ∧
  py_between 1 12 (fan o) = true ∧
  py_between 1 9 (drum o) = true.

(** A setpoint whose value is an integer: [int] of it is defined and equal
    to it. *)
Definition int_valued (x : pynum) : Prop :=
  match py_int x with
  | inr z => py_eqZ x z = true
  | inl _ => False
  end.

(** The test that gates the poll: less than the interval has passed since
    the recorded time. *)
Definition too_soon (current_time : float) (o : AillioR1Demo) : bool :=
  flt (fsub current_time (last_status_update o)) (status_update_interval o).

(** The replies a status round trip gets from the handle of [o]. *)
Definition status_replies (o : AillioR1Demo)
  : option (list byte) * option (list byte) :=
  match usbhandle o with
  | Some dev =>
      ((usb_read dev 64).1, (usb_read (usb_read dev 64).2 64).1)
  | None => (None, None)
  end.

(** The buffer the decoder looks at, when both replies are there. *)
Definition status_buffer (o : AillioR1Demo) : option (list byte) :=
  let '(state1, state2) := status_replies o in
  if truthy state1 && truthy state2
  then Some (default [] state1 ++ default [] state2)
  else None.

(** The value of the byte at an offset of a buffer. *)
Definition byte_at (buf : list byte) (i : nat) : option Z :=
  byte_val <$> buf !! i.

(** The fields as the protocol documents them, by offset. *)
Definition float_at `{Host} (buf : list byte) (i : nat) : float :=
  float_of_bits32
    (le_uint (in_native_order
      (omap (λ k, buf !! k) [i; S i; S (S i); S (S (S i))]))).

Definition int16_at `{Host} (buf : list byte) (i : nat) : Z :=
  int16_of_bits
    (le_uint (in_native_order (omap (λ k, buf !! k) [i; S i]))).

(** The USB traffic of one status round trip. *)
Definition round_trip_traffic : list io_event :=
  [UsbWrite AILLIO_ENDPOINT_WR AILLIO_CMD_STATUS1;
   UsbRead AILLIO_ENDPOINT_RD 64;
   UsbWrite AILLIO_ENDPOINT_WR AILLIO_CMD_STATUS2;
   UsbRead AILLIO_ENDPOINT_RD 64].

(** The labels of the six known states. *)
Definition known_labels : list (Z * string) :=
  [(0x00, "off"); (0x02, "pre-heating"); (0x04, "charge");
   (0x06, "roasting"); (0x08, "cooling"); (0x09, "shutdown")]%string.

(** The calls a user of the object makes, and the worlds they lead to.
    [connect] and [disconnect] assign only [usbhandle] and [roast_number]
    and talk to the device. *)
Inductive call :=
  | SetHeater (value : pynum)
  | SetFan (value : pynum)
  | SetDrum (value : pynum)
  | UpdateReadings (current_time : float).

Definition perform `{Host} (c : call) (w : world) : world :=
  match c with
  | SetHeater v => after (set_heater v) w
  | SetFan v => after (set_fan v) w
  | SetDrum v => after (set_drum v) w
  | UpdateReadings t => after (update_readings t) w
  end.

Inductive reachable `{Host} : world → Prop :=
  | reach_init :
      reachable {| self := __init__; wire := [] |}
  | reach_link w h n traffic :
      reachable w →
      reachable {| self := with_usbhandle h (with_roast_number n (self w));
                   wire := wire w ++ traffic |}
  | reach_call w c :
      reachable w → reachable (perform c w).

(** ** The tick as a function of the object *)

(** What a step setter does, given the int of its argument and of the held
    value: nothing when the clamped target is the held value, else the
    steps and the assignment. *)
Definition stepped (incr decr : command) (current target : Z)
    (queue : list command) : list command :=
  queue ++ replicate (Z.to_nat (Z.abs (current - target)))
             (if current >? target then decr else incr).

Definition get_byte (buf : list byte) (i : nat) : byte :=
  default Byte.x00 (buf !! i).

Definition nth_byte (buf : list byte) (i : nat) : Z :=
  default 0 (byte_at buf i).

(** The queue after the drain and the traffic of the drain. *)
Definition drained (o : AillioR1Demo) : AillioR1Demo :=
  with_command_queue (tail (command_queue o)) o.

Definition drain_traffic (o : AillioR1Demo) : list io_event :=
  match command_queue o with
  | [] => []
  | cmd :: _ =>
      match usbhandle o with
      | Some _ => [UsbWrite AILLIO_ENDPOINT_WR cmd]
      | None => []
      end ++ [Sleep settle_delay]
  end.

(** The handle after a status round trip and the traffic of the round trip. *)
Definition polled (o : AillioR1Demo) : AillioR1Demo :=
  match usbhandle o with
  | Some dev =>
      with_usbhandle (Some (usb_read (usb_read dev 64).2 64).2) o
  | None => o
  end.

Definition poll_traffic (o : AillioR1Demo) : list io_event :=
  match usbhandle o with
  | Some _ => round_trip_traffic
  | None => []
  end.

(** The label of a state, given the label held before. *)
Fixpoint lookup_label (st : Z) (table : list (Z * string)) : option string :=
  match table with
  | [] => None
  | (k, l) :: table' => if st =? k then Some l else lookup_label st table'
  end.

Definition label_of (st : Z) (prior : string) : string :=
  default prior (lookup_label st known_labels).

(** The decoder's assignments by documented offset: those up to
    [self.state], and all of them. *)
Definition decoded_head `{Host} (buf : list byte) (o : AillioR1Demo)
  : AillioR1Demo :=
  with_state (nth_byte buf 29)
    (with_drum (PyInt (nth_byte buf 28))
      (with_heater (PyInt (nth_byte buf 27))
        (with_fan (PyInt (nth_byte buf 26))
          (with_dt (round1 (float_at buf 8))
            (with_bt_ror (round1 (float_at buf 4))
              (with_bt (round1 (float_at buf 36)) o)))))).

Definition decoded `{Host} (buf : list byte) (o : AillioR1Demo)
  : AillioR1Demo :=
  with_state_str (label_of (nth_byte buf 29) (state_str o))
    (with_voltage (PyInt (int16_at buf 48))
      (with_fan_rpm (PyInt (int16_at buf 44)) (decoded_head buf o))).

Definition accepted (buf : list byte) : bool :=
  bool_decide (byte_at buf 41 = Some 10).

(** What [_update_status] returns and the object it leaves. *)
Definition poll `{Host} (current_time : float) (o : AillioR1Demo)
  : bool * AillioR1Demo :=
  if too_soon current_time o then (false, o)
  else
    let o1 := polled (with_last_status_update current_time o) in
    match status_buffer o with
    | Some buf =>
        if accepted buf then
          if (length buf <? 46)%nat then (false, decoded_head buf o1)
          else if (length buf <? 50)%nat then
            (false, with_fan_rpm (PyInt (int16_at buf 44)) (decoded_head buf o1))
          else (true, decoded buf o1)
        else (false, o1)
    | None => (false, o1)
    end.

Definition poll_wire (current_time : float) (o : AillioR1Demo)
  : list io_event :=
  if too_soon current_time o then [] else poll_traffic o.



(** The drum command for a value. *)
Definition drum_command (value : Z) : command := [0x32; 0x01; value; 0x00].

(** ** The rest of the class: connecting, disconnecting, accessors *)

Definition AILLIO_CMD_INFO1 : command := [0x30; 0x02].
Definition AILLIO_CMD_INFO2 : command := [0x89; 0x01].
Definition AILLIO_CONFIGURATION : Z := 0x1.

(** A device that [usb.core.find] returns, as [connect] sees it: the outcome
    of each call [connect] makes on it, and the reads of its endpoint.
    [inl e] is a call that raises; [connect] catches every exception alike
    and only logs it. For [get_active_configuration] the value is [None] or
    the [bConfigurationValue] of the configuration. *)
Record found_device := {
  is_kernel_driver_active : exn + bool;
  detach_kernel_driver : exn + unit;
  get_active_configuration : exn + option Z;
  set_configuration : exn + unit;
  claim_interface : exn + unit;
  endpoint_reads : usb_device
}.

(** What the two calls of [usb.core.find] give: for the primary product id
    and for the revision 3 one. *)
Record usb_bus := {
  find_primary : exn + option found_device;
  find_rev3 : exn + option found_device
}.

(** [unpack('>I', bs)[0]]: big-endian on every host. *)
Definition unpack_I_be (bs : list byte) : exn + Z :=
  if (length bs =? 4)%nat
  then inr (le_uint (reverse bs))
  else inl StructError.

(** [connect], lines 92-106: the search. The result of each [find] is
    assigned to [self.usbhandle], also when it is [None]. *)
Definition connect_find (bus : usb_bus) : M (option found_device) :=
  d ← lift (find_primary bus);
  assign (with_usbhandle (endpoint_reads <$> d));;
  match d with
  | None =>
      d ← lift (find_rev3 bus);
      assign (with_usbhandle (endpoint_reads <$> d));;
      mret d
  | Some _ => mret d
  end.

(** [connect], lines 110-131: kernel driver, configuration, claim.
    [Some false] is [return False]; [None] goes on. *)
Definition connect_open (d : found_device) : M (option bool) :=
  active ← lift (is_kernel_driver_active d);
  (if active : bool
   then try_except (lift (detach_kernel_driver d)) (λ _, mret tt)
   else mret tt);;
  r ← try_except
        (config ← lift (get_active_configuration d);
         match config with
         | Some v =>
             if negb (v =? AILLIO_CONFIGURATION)
             then lift (set_configuration d);; mret None
             else mret None
         | None => mret None
         end)
        (λ _, mret (Some false));
  match r with
  | Some b => mret (Some b)
  | None =>
      try_except (lift (claim_interface d);; mret None)
        (λ _, mret (Some false))
  end.

(** [connect], lines 133-146: the two info requests. The serial number and
    the firmware version are only logged. *)
Definition connect_info `{Host} : M unit :=
  _send_command AILLIO_CMD_INFO1;;
  reply ← _read_reply 32;
  (if truthy reply then
     sn ← lift (unpack_h (slice (default [] reply) 0 2));
     firmware ← lift (unpack_h (slice (default [] reply) 24 26));
     mret tt
   else mret tt);;
  _send_command AILLIO_CMD_INFO2;;
  reply ← _read_reply 36;
  if truthy reply then
    n ← lift (unpack_I_be (slice (default [] reply) 27 31));
    assign (with_roast_number n)
  else mret tt.

Definition connect `{Host} (bus : usb_bus) : M bool :=
  try_except
    (d ← connect_find bus;
     match d with
     | None => mret false
     | Some d =>
         r ← connect_open d;
         match r with
         | Some b => mret b
         | None => connect_info;; mret true
         end
     end)
    (λ _, mret false).

(** [disconnect]: releasing and disposing may raise, which is ignored. *)
Definition disconnect : M unit :=
  o ← get_self;
  match usbhandle o with
  | Some _ => assign (with_usbhandle None)
  | None => mret tt
  end.

(** [str.upper] on ASCII text. *)
Definition upper_ascii (c : Ascii.ascii) : Ascii.ascii :=
  let n := Ascii.nat_of_ascii c in
  if ((97 <=? n) && (n <=? 122))%nat then Ascii.ascii_of_nat (n - 32) else c.

Fixpoint py_upper (s : string) : string :=
  match s with
  | EmptyString => EmptyString
  | String c s' => String (upper_ascii c) (py_upper s')
  end.

Definition get_bt (o : AillioR1Demo) : float := bt o.
Definition get_dt (o : AillioR1Demo) : float := dt o.
Definition get_heater (o : AillioR1Demo) : pynum := heater o.
Definition get_fan (o : AillioR1Demo) : pynum := fan o.
Definition get_drum (o : AillioR1Demo) : pynum := drum o.
Definition get_state_string (o : AillioR1Demo) : string :=
  py_upper (state_str o).

(** ** Sequences of calls *)

(** Ticks at the given times, one after the other. *)
Fixpoint ticks `{Host} (times : list float) (w : world) : world :=
  match times with
  | [] => w
  | t :: times' => ticks times' (after (update_readings t) w)
  end.

(** Calls one after the other. *)
Fixpoint performs `{Host} (calls : list call) (w : world) : world :=
  match calls with
  | [] => w
  | c :: calls' => performs calls' (perform c w)
  end.

Definition is_setter (c : call) : bool :=
  match c with
  | UpdateReadings _ => false
  | _ => true
  end.

(** The commands written to the device other than the two status
    requests, in the order of the writes. *)
Definition is_status_command (cmd : command) : bool :=
  bool_decide (cmd = AILLIO_CMD_STATUS1 ∨ cmd = AILLIO_CMD_STATUS2).

Definition commands_sent (traffic : list io_event) : list command :=
  omap (λ ev, match ev with
              | UsbWrite _ cmd =>
                  if is_status_command cmd then None else Some cmd
              | _ => None
              end) traffic.

(** The increments less the decrements among the queued commands. *)
Definition net_steps (incr decr : command) (queue : list command) : Z :=
  foldr (λ cmd n, (if bool_decide (cmd = incr) then 1
                   else if bool_decide (cmd = decr) then -1 else 0) + n)
    0 queue.

(** The held value less the steps still queued: the value the device is at
    if it has followed every command sent so far. *)
Definition balance (held : AillioR1Demo → pynum) (incr decr : command)
    (o : AillioR1Demo) : option Z :=
  match py_int (held o) with
  | inr z => Some (z - net_steps incr decr (command_queue o))
  | inl _ => None
  end.

(** The commands the setters enqueue. *)
Definition setter_command (cmd : command) : Prop :=
  cmd ∈ [AILLIO_CMD_HEATER_INCR; AILLIO_CMD_HEATER_DECR;
         AILLIO_CMD_FAN_INCR; AILLIO_CMD_FAN_DECR]
  ∨ ∃ v, 1 ≤ v ≤ 9 ∧ cmd = drum_command v.

(** The labels [get_state_string] can show. *)
Definition shown_labels : list string :=
  ["OFF"; "PRE-HEATING"; "CHARGE"; "ROASTING"; "COOLING"; "SHUTDOWN"]%string.

(** What a setter leaves alone: everything but the three setpoints and the
    queue. *)
Definition setter_frame (o o' : AillioR1Demo) : Prop :=
  usbhandle o' = usbhandle o ∧ bt o' = bt o ∧ dt o' = dt o ∧
  bt_ror o' = bt_ror o ∧ fan_rpm o' = fan_rpm o ∧ voltage o' = voltage o ∧
  state o' = state o ∧ state_str o' = state_str o ∧
  roast_number o' = roast_number o ∧
  last_status_update o' = last_status_update o ∧
  status_update_interval o' = status_update_interval o.

(** A setpoint that holds an integer which fits a byte. *)
Definition byte_valued (x : pynum) : Prop :=
  ∃ z, py_eqZ x z = true ∧ 0 ≤ z ≤ 255.

(** ** Vocabulary for connecting *)

(** The device [connect] settles on: the primary one if it is found, else
    the revision 3 one. *)
Definition chosen (bus : usb_bus) (d : found_device) : Prop :=
  find_primary bus = inr (Some d) ∨
  (find_primary bus = inr None ∧ find_rev3 bus = inr (Some d)).

(** The device lets itself be opened: the kernel driver query does not
    raise, the active configuration can be read and, when it is not
    configuration 1, be set, and the interface can be claimed. *)
Definition opens (d : found_device) : bool :=
  match is_kernel_driver_active d, get_active_configuration d,
        claim_interface d with
  | inr _, inr config, inr _ =>
      match config with
      | Some v =>
          if v =? AILLIO_CONFIGURATION then true
          else match set_configuration d with
               | inr _ => true
               | inl _ => false
               end
      | None => true
      end
  | _, _, _ => false
  end.

(** The two info replies of a handle, and the handle after both reads. *)
Definition info_reply1 (dev : usb_device) : option (list byte) :=
  (usb_read dev 32).1.
Definition info_reply2 (dev : usb_device) : option (list byte) :=
  (usb_read (usb_read dev 32).2 36).1.
Definition after_info (dev : usb_device) : usb_device :=
  (usb_read (usb_read dev 32).2 36).2.

Definition info_traffic : list io_event :=
  [UsbWrite AILLIO_ENDPOINT_WR AILLIO_CMD_INFO1;
   UsbRead AILLIO_ENDPOINT_RD 32;
   UsbWrite AILLIO_ENDPOINT_WR AILLIO_CMD_INFO2;
   UsbRead AILLIO_ENDPOINT_RD 36].

(** The big-endian unsigned 32-bit number at an offset of a reply. *)
Definition be_uint32_at (reply : list byte) (i : nat) : Z :=
  nth_byte reply i * 2 ^ 24 + nth_byte reply (i + 1) * 2 ^ 16
  + nth_byte reply (i + 2) * 2 ^ 8 + nth_byte reply (i + 3).

(** A world that differs from another at most in the handle, the roast
    number and further traffic: what connecting and disconnecting may
    change. *)
Definition linked (w w' : world) : Prop :=
  ∃ h n traffic,
    w' = {| self := with_usbhandle h (with_roast_number n (self w));
            wire := wire w ++ traffic |}.

Definition links {A} (m : M A) : Prop := ∀ w, linked w (after m w).

(** An info reply that is there but too short to unpack: the first needs
    26 bytes, the second 31. *)
Definition info1_short (dev : usb_device) : bool :=
  truthy (info_reply1 dev)
  && (length (default [] (info_reply1 dev)) <? 26)%nat.

Definition info2_short (dev : usb_device) : bool :=
  truthy (info_reply2 dev)
  && (length (default [] (info_reply2 dev)) <? 31)%nat.

(** ** The documented formats, written independently of the decoder *)

(** The bytes of a field as one unsigned number: [n] bytes from offset [i],
    each with the weight the byte order of the host gives it. *)
Definition native_uint_at `{Host} (buf : list byte) (i n : nat) : Z :=
  foldr (λ k acc,
           nth_byte buf (i + k)
             * 256 ^ Z.of_nat (match native with
                               | LittleEndian => k
                               | BigEndian => n - 1 - k
                               end)
           + acc)
    0 (seq 0 n).

(** IEEE 754 binary32: [x] is the value of the 32-bit pattern [bits], with
    the sign in bit 31, the biased exponent in bits 23-30 and the fraction
    in bits 0-22. A finite value is given by what it is worth: the
    mantissa [m] and exponent [e] of [x] satisfy
    [m * 2^e = (2^23 + fraction) * 2^(biased - 150)], or
    [fraction * 2^(-149)] for a subnormal, both sides scaled by [2^1074];
    [x] is a well-formed binary64 value, which makes it unique. *)
Definition binary32_value (bits : Z) (x : float) : Prop :=
  let sign := 2 ^ 31 <=? bits in
  let biased := (bits / 2 ^ 23) mod 2 ^ 8 in
  let fraction := bits mod 2 ^ 23 in
  if biased =? 255 then
    x = (if fraction =? 0 then S754_infinity sign else S754_nan)
  else if (biased =? 0) && (fraction =? 0) then x = S754_zero sign
  else
    ∃ m e,
      x = S754_finite sign m e ∧
      valid_binary 53 1024 x = true ∧
      Z.pos m * 2 ^ (e + 1074)
        = (if biased =? 0 then fraction else 2 ^ 23 + fraction)
          * 2 ^ ((if biased =? 0 then 1 else biased) - 150 + 1074).

(** ** Sample data *)

Definition little_endian_host : Host := {| native := LittleEndian |}.

Definition byte_of_Z (z : Z) : byte :=
  default Byte.x00 (Byte.of_N (Z.to_N z)).

(** A first status reply: rate of rise 2.5, drum temperature 180.25, fan 5,
    heater 7, drum 4, state roasting, bean temperature 201.46, validity
    marker 10, fan rpm 1200, voltage 230. *)
Definition sample_reply1 : list byte :=
  byte_of_Z <$>
    ([0; 0; 0; 0] ++ [0x00; 0x00; 0x20; 0x40] ++ [0x00; 0x40; 0x34; 0x43]
     ++ replicate 14 0 ++ [5; 7; 4; 6] ++ replicate 6 0
     ++ [0xc3; 0x75; 0x49; 0x43] ++ [0; 10; 0; 0] ++ [0xb0; 0x04; 0; 0]
     ++ [0xe6; 0x00] ++ replicate 14 0).

Definition sample_reply2 : list byte := replicate 64 Byte.x00.

(** The float literals 200.0, 8.9 and 1000.0. *)
Definition f200 : float := float_of_scaled 7036874417766400 (-45).
Definition f8_9 : float := float_of_scaled 5010254585449677 (-49).
Definition f1000 : float := float_of_Z 1000.

(** A connected object in mid-roast and a new, unconnected one. *)
Definition roasting (dev : usb_device) (queue : list command) : world :=
  {| self :=
       with_usbhandle (Some dev) (with_command_queue queue
         (with_bt f200 (with_heater (PyInt 3) (with_state_str "roasting"
           (with_state 6 __init__)))));
     wire := [] |}.

Definition new_object : world := {| self := __init__; wire := [] |}.

(** The first reply with another validity marker, and with a heater byte
    of 200. *)
Definition stale_reply1 : list byte := <[41%nat := byte_of_Z 11]> sample_reply1.
Definition overrange_reply1 : list byte :=
  <[27%nat := byte_of_Z 200]> sample_reply1.

(** The float 1000.0625, a sixteenth of a second after [f1000]. *)
Definition f1000_0625 : float := float_of_scaled 16001 (-4).

(** A short second reply of one byte, and the first 48 bytes of the sample
    split into replies of 40 and 8 bytes. *)
Definition short_reply2 : list byte := [Byte.x00].
Definition cut_reply1 : list byte := take 40 sample_reply1.
Definition cut_reply2 : list byte := take 8 (drop 40 sample_reply1).

(** The first reply with the unknown state byte 0x0A. *)
Definition unknown_state_reply1 : list byte :=
  <[29%nat := byte_of_Z 0x0A]> sample_reply1.

(** A roaster on the bus: no kernel driver, configuration 1 active, the
    claim succeeds; it answers the info requests with the given replies. *)
Definition plugged (reads : usb_device) : found_device :=
  {| is_kernel_driver_active := inr false;
     detach_kernel_driver := inr tt;
     get_active_configuration := inr (Some 1);
     set_configuration := inr tt;
     claim_interface := inr tt;
     endpoint_reads := reads |}.

(** An info reply of 36 bytes whose bytes 27 to 30 are 00 00 01 2c: 300
    roasts. *)
Definition info_reply : list byte :=
  byte_of_Z <$> (replicate 27 0 ++ [0; 0; 1; 0x2c] ++ replicate 5 0).

(** A new object with an open handle, as [connect] leaves it. *)
Definition connected_object (dev : usb_device) : world :=
  {| self := with_usbhandle (Some dev) (with_roast_number 300 __init__);
     wire := [] |}.

(** Buses: the roaster under the revision 3 id only; nothing at all; a
    roaster whose interface cannot be claimed; a roaster that needs
    configuration 1 set. *)
Definition rev3_bus (reads : usb_device) : usb_bus :=
  {| find_primary := inr None; find_rev3 := inr (Some (plugged reads)) |}.


Definition busy_device (reads : usb_device) : found_device :=
  {| is_kernel_driver_active := inr true;
     detach_kernel_driver := inl ValueError;
     get_active_configuration := inr (Some 1);
     set_configuration := inr tt;
     claim_interface := inl ValueError;
     endpoint_reads := reads |}.

(** ** Running computations *)

Ltac mred :=
  repeat (unfold mbind, mret, M_bind, M_ret, lift, raise, get_self, assign,
            emit, try_except, after, outcome in *; simpl in *).

Lemma world_eta (w : world) : {| self := self w; wire := wire w |} = w.
Proof. by destruct w. Qed.

Lemma with_command_queue_same (o : AillioR1Demo) :
  with_command_queue (command_queue o) o = o.
Proof. by destruct o. Qed.

(** The loop of a setter appends its command [n] times. *)
Lemma for_range_append (n : nat) (cmd : command) (w : world) :
  for_range n (append cmd) w =
    (inr tt,
     {| self := with_command_queue
                  (command_queue (self w) ++ replicate n cmd) (self w);
        wire := wire w |}).
Proof.
  revert w. induction n as [|n IH]; intros [o tr]; simpl.
  - mred. by rewrite app_nil_r, with_command_queue_same.
  - unfold append at 1. mred. rewrite IH. simpl.
    by rewrite <- app_assoc.
Qed.

(** ** The setters *)

Lemma set_heater_run (value : pynum) (v current : Z) (w : world) :
  py_int value = inr v →
  py_int (heater (self w)) = inr current →
  set_heater value w =
    (inr tt,
     if clamp 0 9 v =? current then w
     else {| self := with_heater (PyInt (clamp 0 9 v))
                       (with_command_queue
                          (stepped AILLIO_CMD_HEATER_INCR AILLIO_CMD_HEATER_DECR
                             current (clamp 0 9 v) (command_queue (self w)))
                          (self w));
             wire := wire w |}).
Proof.
  intros Hv Hc. unfold set_heater. rewrite Hv. mred. rewrite Hc. simpl.
  destruct (Z.eqb_spec (clamp 0 9 v) current) as [->|Hne].
  - by rewrite Z.sub_diag.
  - destruct (Z.eqb_spec (Z.abs (current - clamp 0 9 v)) 0) as [E|_]; [lia|].
    unfold stepped.
    destruct (current >? clamp 0 9 v); rewrite for_range_append; by mred.
Qed.

Lemma set_fan_run (value : pynum) (v current : Z) (w : world) :
  py_int value = inr v →
  py_int (fan (self w)) = inr current →
  set_fan value w =
    (inr tt,
     if clamp 1 12 v =? current then w
     else {| self := with_fan (PyInt (clamp 1 12 v))
                       (with_command_queue
                          (stepped AILLIO_CMD_FAN_INCR AILLIO_CMD_FAN_DECR
                             current (clamp 1 12 v) (command_queue (self w)))
                          (self w));
             wire := wire w |}).
Proof.
  intros Hv Hc. unfold set_fan. rewrite Hv. mred. rewrite Hc. simpl.
  destruct (Z.eqb_spec (clamp 1 12 v) current) as [->|Hne].
  - by rewrite Z.sub_diag.
  - destruct (Z.eqb_spec (Z.abs (current - clamp 1 12 v)) 0) as [E|_]; [lia|].
    unfold stepped.
    destruct (current >? clamp 1 12 v); rewrite for_range_append; by mred.
Qed.

Lemma set_drum_run (value : pynum) (v : Z) (w : world) :
  py_int value = inr v →
  set_drum value w =
    (inr tt,
     {| self := with_drum (PyInt (clamp 1 9 v))
                  (with_command_queue
                     (command_queue (self w) ++ [drum_command (clamp 1 9 v)])
                     (self w));
        wire := wire w |}).
Proof. intros Hv. unfold set_drum, append. rewrite Hv. by mred. Qed.

(** A setter whose argument has no int raises and changes nothing. *)
Lemma setter_raises (value : pynum) (e : exn) (w : world) :
  py_int value = inl e →
  set_heater value w = (inl e, w) ∧
  set_fan value w = (inl e, w) ∧
  set_drum value w = (inl e, w).
Proof.
  intros Hv. unfold set_heater, set_fan, set_drum. rewrite Hv. by mred.
Qed.

(** ** Bytes, slices and unpacking *)

Lemma nth_byte_get (buf : list byte) (i : nat) :
  nth_byte buf i = byte_val (get_byte buf i).
Proof. unfold nth_byte, byte_at, get_byte. by destruct (buf !! i). Qed.

Lemma byte_val_range (b : byte) : 0 ≤ byte_val b ≤ 255.
Proof.
  unfold byte_val. pose proof (Byte.to_N_bounded b). lia.
Qed.

Lemma int16_of_bits_range (bits : Z) :
  0 ≤ bits < 65536 → -32768 ≤ int16_of_bits bits < 32768.
Proof. unfold int16_of_bits. destruct (Z.ltb_spec bits 32768); lia. Qed.

Lemma int16_of_bits_mod (bits : Z) : int16_of_bits bits mod 65536 = bits mod 65536.
Proof.
  unfold int16_of_bits. destruct (bits <? 32768); [done|].
  replace (bits - 65536) with (bits + (-1) * 65536) by lia.
  by rewrite Z.mod_add.
Qed.

Lemma index_lt (buf : list byte) (i : nat) :
  (i < length buf)%nat → index buf i = inr (get_byte buf i).
Proof.
  intros Hi. unfold index, get_byte.
  destruct (lookup_lt_is_Some_2 buf i Hi) as [b ->]. done.
Qed.

Lemma slice_length (buf : list byte) (i j : nat) :
  length (slice buf i j) = ((j - i) `min` (length buf - i))%nat.
Proof. unfold slice. by rewrite length_take, length_drop. Qed.

Lemma take_drop_seq (buf : list byte) (n i : nat) :
  (i + n ≤ length buf)%nat →
  take n (drop i buf) = omap (λ k, buf !! k) (seq i n).
Proof.
  revert i. induction n as [|n IH]; intros i Hi; [done|].
  destruct (lookup_lt_is_Some_2 buf i) as [b Hb]; [lia|].
  rewrite (drop_S _ _ _ Hb). simpl. rewrite Hb. simpl.
  f_equal. apply IH. lia.
Qed.

Lemma slice_seq (buf : list byte) (i j : nat) :
  (j ≤ length buf)%nat → (i ≤ j)%nat →
  slice buf i j = omap (λ k, buf !! k) (seq i (j - i)).
Proof. intros Hj Hi. apply take_drop_seq. lia. Qed.

Section Unpacking.
Context `{Host}.

Lemma in_native_order_length (bs : list byte) :
  length (in_native_order bs) = length bs.
Proof.
  unfold in_native_order. destruct native; [done|]. apply length_reverse.
Qed.

Lemma unpack_f_slice (buf : list byte) (i : nat) :
  (i + 4 ≤ length buf)%nat →
  unpack_f (slice buf i (i + 4)) = inr (float_at buf i).
Proof.
  intros Hi. unfold unpack_f, float_at.
  rewrite slice_length.
  replace ((i + 4 - i) `min` (length buf - i))%nat with 4%nat by lia.
  simpl. rewrite slice_seq by lia.
  by replace (i + 4 - i)%nat with 4%nat by lia.
Qed.

Lemma unpack_h_slice (buf : list byte) (i : nat) :
  (i + 2 ≤ length buf)%nat →
  unpack_h (slice buf i (i + 2)) = inr (int16_at buf i).
Proof.
  intros Hi. unfold unpack_h, int16_at.
  rewrite slice_length.
  replace ((i + 2 - i) `min` (length buf - i))%nat with 2%nat by lia.
  simpl. rewrite slice_seq by lia.
  by replace (i + 2 - i)%nat with 2%nat by lia.
Qed.

Lemma unpack_h_short (buf : list byte) (i : nat) :
  (length buf < i + 2)%nat →
  unpack_h (slice buf i (i + 2)) = inl StructError.
Proof.
  intros Hi. unfold unpack_h. rewrite slice_length.
  destruct (Nat.eqb_spec ((i + 2 - i) `min` (length buf - i)) 2); [lia|done].
Qed.

Lemma le_uint_bound (bs : list byte) :
  0 ≤ le_uint bs < 256 ^ Z.of_nat (length bs).
Proof.
  induction bs as [|b bs IH]; [simpl; lia|].
  cbn [le_uint length]. pose proof (byte_val_range b).
  rewrite Nat2Z.inj_succ, Z.pow_succ_r by lia. lia.
Qed.

Lemma int16_at_range (buf : list byte) (i : nat) :
  -32768 ≤ int16_at buf i < 32768.
Proof.
  unfold int16_at. apply int16_of_bits_range.
  pose proof (le_uint_bound
    (in_native_order (omap (λ k, buf !! k) [i; S i]))) as Hb.
  rewrite in_native_order_length in Hb.
  assert (length (omap (λ k, buf !! k) [i; S i]) ≤ 2)%nat as Hl.
  { simpl. destruct (buf !! i), (buf !! S i); simpl; lia. }
  assert (256 ^ Z.of_nat (length (omap (λ k, buf !! k) [i; S i])) ≤ 256 ^ 2).
  { apply Z.pow_le_mono_r; lia. }
  lia.
Qed.
End Unpacking.

(** ** Closed forms of the tick *)

Lemma process_command_queue_run (w : world) :
  _process_command_queue w =
    (inr tt, {| self := drained (self w);
                wire := wire w ++ drain_traffic (self w) |}).
Proof.
  destruct w as [o tr]. unfold _process_command_queue, drained, drain_traffic.
  mred. destruct (command_queue o) as [|cmd rest] eqn:Hq; simpl.
  - rewrite app_nil_r, <- Hq. by rewrite with_command_queue_same.
  - unfold popleft, _send_command. mred. rewrite Hq. mred. rewrite Hq. mred.
    destruct (usbhandle o); mred; by rewrite <- ?app_assoc.
Qed.

Lemma status_round_trip_run (w : world) :
  status_round_trip w =
    (inr (status_replies (self w)),
     {| self := polled (self w); wire := wire w ++ poll_traffic (self w) |}).
Proof.
  destruct w as [[[dev|] ? ? ? ? ? ? ? ? ? ? ? ? ? ?] tr];
    unfold status_round_trip, status_replies, polled, poll_traffic,
      _send_command, _read_reply; mred.
  - by rewrite <- !app_assoc.
  - by rewrite app_nil_r.
Qed.

Lemma update_state_string_run (w : world) :
  _update_state_string w =
    (inr tt,
     {| self := with_state_str
                  (label_of (state (self w)) (state_str (self w))) (self w);
        wire := wire w |}).
Proof.
  destruct w as [o tr]. unfold _update_state_string, label_of. mred.
  unfold AILLIO_STATE_OFF, AILLIO_STATE_PH, AILLIO_STATE_CHARGE,
    AILLIO_STATE_ROASTING, AILLIO_STATE_COOLING, AILLIO_STATE_SHUTDOWN.
  repeat (destruct (state o =? _); [done|]).
  by destruct o.
Qed.

Arguments round1 : simpl never.
Arguments float_at : simpl never.
Arguments int16_at : simpl never.
Arguments byte_val : simpl never.
Arguments get_byte : simpl never.
Arguments nth_byte : simpl never.
Arguments label_of : simpl never.

Section Decoding.
Context `{Host}.

#[local] Arguments Z.eqb : simpl never.

(** A rejected or missing snapshot: the decoder changes nothing. *)
Lemma parse_status_rejects (state1 state2 : option (list byte)) (w : world) :
  truthy state1 && truthy state2 = false ∨
  byte_at (default [] state1 ++ default [] state2) 41 ≠ Some 10 →
  parse_status state1 state2 w = (inr None, w) ∨
  parse_status state1 state2 w = (inl IndexError, w).
Proof.
  intros Hrej. unfold parse_status.
  destruct (truthy state1 && truthy state2) eqn:Ht; [|left; by mred].
  destruct Hrej as [|Hrej]; [done|].
  cbv zeta. set (buf := default [] state1 ++ default [] state2) in *.
  unfold byte_at, index in *.
  destruct (buf !! 41%nat) as [b|]; mred; [|by right].
  destruct (Z.eqb_spec (byte_val b) 10) as [E|_]; [|by left].
  by rewrite E in Hrej.
Qed.

(** An accepted snapshot: what the decoder does, by length of the buffer. *)
Lemma parse_status_accepts (state1 state2 : option (list byte)) (w : world) :
  let buf := default [] state1 ++ default [] state2 in
  truthy state1 && truthy state2 = true →
  byte_at buf 41 = Some 10 →
  parse_status state1 state2 w =
    if (length buf <? 46)%nat then
      (inl StructError,
       {| self := decoded_head buf (self w); wire := wire w |})
    else if (length buf <? 50)%nat then
      (inl StructError,
       {| self := with_fan_rpm (PyInt (int16_at buf 44))
                    (decoded_head buf (self w));
          wire := wire w |})
    else
      (inr (Some true), {| self := decoded buf (self w); wire := wire w |}).
Proof.
  intros buf Ht H41. unfold parse_status. rewrite Ht. cbv zeta. fold buf.
  assert (41 < length buf)%nat as Hlen.
  { unfold byte_at in H41. destruct (buf !! 41%nat) eqn:E; [|done].
    by apply lookup_lt_Some in E. }
  assert (byte_val (get_byte buf 41) = 10) as Hv.
  { rewrite <- nth_byte_get. unfold nth_byte. by rewrite H41. }
  rewrite !index_lt by lia.
  change (slice buf 36 40) with (slice buf 36 (36 + 4)).
  change (slice buf 4 8) with (slice buf 4 (4 + 4)).
  change (slice buf 8 12) with (slice buf 8 (8 + 4)).
  change (slice buf 44 46) with (slice buf 44 (44 + 2)).
  change (slice buf 48 50) with (slice buf 48 (48 + 2)).
  rewrite !unpack_f_slice by lia.
  unfold decoded, decoded_head. rewrite !nth_byte_get.
  destruct (Nat.ltb_spec (length buf) 46).
  { rewrite (unpack_h_short buf 44) by lia. mred. by rewrite Hv. }
  rewrite (unpack_h_slice buf 44) by lia.
  destruct (Nat.ltb_spec (length buf) 50).
  { rewrite (unpack_h_short buf 48) by lia. mred. by rewrite Hv. }
  rewrite (unpack_h_slice buf 48) by lia.
  destruct w as [o tr].
  unfold mbind, mret, M_bind, M_ret, lift, assign. simpl. rewrite Hv. simpl.
  rewrite update_state_string_run. done.
Qed.

(** [_update_status] in terms of what the decoder does with the replies. *)
Lemma update_status_unfold (current_time : float) (w : world) :
  _update_status current_time w =
    if too_soon current_time (self w) then (inr false, w)
    else
      let '(state1, state2) := status_replies (self w) in
      match parse_status state1 state2
              {| self := polled (with_last_status_update current_time (self w));
                 wire := wire w ++ poll_traffic (self w) |} with
      | (inr (Some b), w') => (inr b, w')
      | (_, w') => (inr false, w')
      end.
Proof.
  unfold _update_status, too_soon. mred.
  destruct (flt _ _); [done|].
  unfold _update_status_try. unfold mbind, M_bind.
  rewrite status_round_trip_run. simpl.
  change (status_replies (with_last_status_update current_time (self w)))
    with (status_replies (self w)).
  destruct (status_replies (self w)) as [state1 state2].
  change (poll_traffic (with_last_status_update current_time (self w)))
    with (poll_traffic (self w)).
  destruct (parse_status state1 state2 _) as [[e|[b|]] w']; done.
Qed.

Lemma update_readings_unfold (current_time : float) (w : world) :
  update_readings current_time w =
    _update_status current_time
      {| self := drained (self w);
         wire := wire w ++ drain_traffic (self w) |}.
Proof.
  unfold update_readings. unfold mbind, M_bind.
  by rewrite process_command_queue_run.
Qed.
End Decoding.

(** ** The status update as a function of the object *)

Section Polling.
Context `{Host}.

Lemma update_status_run (current_time : float) (w : world) :
  _update_status current_time w =
    (inr (poll current_time (self w)).1,
     {| self := (poll current_time (self w)).2;
        wire := wire w ++ poll_wire current_time (self w) |}).
Proof.
  rewrite update_status_unfold. unfold poll, poll_wire, status_buffer.
  destruct (too_soon current_time (self w)).
  { simpl. by rewrite app_nil_r, world_eta. }
  destruct (status_replies (self w)) as [state1 state2].
  destruct (truthy state1 && truthy state2) eqn:Ht.
  - unfold accepted. case_bool_decide as H41.
    + rewrite parse_status_accepts by done. simpl.
      destruct (_ <? 46)%nat; [done|]. by destruct (_ <? 50)%nat.
    + destruct (parse_status_rejects state1 state2
        {| self := polled (with_last_status_update current_time (self w));
           wire := wire w ++ poll_traffic (self w) |}) as [-> | ->];
        [by right|done..].
  - destruct (parse_status_rejects state1 state2
        {| self := polled (with_last_status_update current_time (self w));
           wire := wire w ++ poll_traffic (self w) |}) as [-> | ->];
        [by left|done..].
Qed.

Lemma update_readings_run (current_time : float) (w : world) :
  update_readings current_time w =
    (inr (poll current_time (drained (self w))).1,
     {| self := (poll current_time (drained (self w))).2;
        wire := wire w ++ drain_traffic (self w)
                  ++ poll_wire current_time (self w) |}).
Proof.
  rewrite update_readings_unfold, update_status_run. simpl.
  by rewrite <- app_assoc.
Qed.

(** The status update leaves the queue, the interval and the roast number
    alone, and records the time exactly when it is not too soon. *)
Lemma poll_frame (current_time : float) (o : AillioR1Demo) :
  let o' := (poll current_time o).2 in
  command_queue o' = command_queue o ∧
  status_update_interval o' = status_update_interval o ∧
  roast_number o' = roast_number o ∧
  last_status_update o' =
    if too_soon current_time o then last_status_update o else current_time.
Proof.
  unfold poll, polled, decoded, decoded_head.
  destruct o as [[dev|] ? ? ? ? ? ? ? ? ? ? ? ? ? ?];
    repeat case_match; simpl; done.
Qed.

(** The status update either leaves the setpoints alone or, on an accepted
    buffer, stores the bytes at offsets 26, 27 and 28. *)
Lemma poll_setpoints (current_time : float) (o : AillioR1Demo) :
  let o' := (poll current_time o).2 in
  (fan o' = fan o ∧ heater o' = heater o ∧ drum o' = drum o) ∨
  (∃ buf, status_buffer o = Some buf ∧ byte_at buf 41 = Some 10 ∧
          fan o' = PyInt (nth_byte buf 26) ∧
          heater o' = PyInt (nth_byte buf 27) ∧
          drum o' = PyInt (nth_byte buf 28)).
Proof.
  unfold poll.
  destruct (too_soon current_time o); [by left|].
  destruct (status_buffer o) as [buf|] eqn:Hbuf.
  2: { left. unfold polled. simpl. by destruct (usbhandle o). }
  unfold accepted. case_bool_decide as H41.
  2: { left. unfold polled. simpl. by destruct (usbhandle o). }
  right. exists buf. unfold polled, decoded, decoded_head. simpl.
  destruct (_ <? 46)%nat; [|destruct (_ <? 50)%nat];
    by destruct (usbhandle o).
Qed.
End Polling.

(** ** Held setpoints are integers *)

Lemma py_eqZ_int (x : pynum) (z : Z) :
  py_eqZ x z = true → py_int x = inr z.
Proof.
  destruct x as [y|[s|s| |s m e]]; simpl; try done.
  - by intros ->%Z.eqb_eq.
  - by intros ->%Z.eqb_eq.
  - destruct (0 <=? e).
    + by intros ->%Z.eqb_eq.
    + by intros [_ ->%Z.eqb_eq]%andb_true_iff.
Qed.

Lemma int_valued_PyInt (z : Z) : int_valued (PyInt z).
Proof. unfold int_valued. simpl. apply Z.eqb_refl. Qed.

Lemma int_valued_inv (x : pynum) :
  int_valued x → ∃ z, py_int x = inr z ∧ py_eqZ x z = true.
Proof.
  unfold int_valued. destruct (py_int x) as [e|z]; [done|]. by exists z.
Qed.

Lemma clamp_range (lo hi v : Z) : lo ≤ hi → lo ≤ clamp lo hi v ≤ hi.
Proof. unfold clamp. lia. Qed.

Section Reachable.
Context `{Host}.

(** In every reachable world the held heater and fan values are integers:
    the constructor's [0.0] and [1.0], a clamped target, or a byte of the
    device. *)
Lemma reachable_int_valued (w : world) :
  reachable w →
  int_valued (heater (self w)) ∧ int_valued (fan (self w)).
Proof.
  induction 1 as [|w h n traffic _ IH|w c _ [IHh IHf]].
  - split; by vm_compute.
  - done.
  - destruct c as [value|value|value|t]; unfold perform, after.
    + destruct (py_int value) as [e|v] eqn:Hv.
      { by rewrite (proj1 (setter_raises value e w Hv)). }
      destruct (int_valued_inv _ IHh) as (cur & Hc & _).
      rewrite (set_heater_run value v cur w Hv Hc). simpl.
      destruct (clamp 0 9 v =? cur); [done|].
      split; [apply int_valued_PyInt|done].
    + destruct (py_int value) as [e|v] eqn:Hv.
      { by rewrite (proj1 (proj2 (setter_raises value e w Hv))). }
      destruct (int_valued_inv _ IHf) as (cur & Hc & _).
      rewrite (set_fan_run value v cur w Hv Hc). simpl.
      destruct (clamp 1 12 v =? cur); [done|].
      split; [done|apply int_valued_PyInt].
    + destruct (py_int value) as [e|v] eqn:Hv.
      { by rewrite (proj2 (proj2 (setter_raises value e w Hv))). }
      by rewrite (set_drum_run value v w Hv).
    + rewrite update_readings_run. simpl.
      destruct (poll_setpoints t (drained (self w)))
        as [(Hf & Hh & _)|(buf & _ & _ & Hf & Hh & _)];
        rewrite Hf, Hh; [done|].
      split; apply int_valued_PyInt.
Qed.
End Reachable.

(** ** The step setters *)






(** The scenarios of the specification: heater 3 to 9 is six increments,
    [set_fan(20)] on a new object is eleven increments and fan 12. *)
Example set_heater_3_to_9 :
  let w := after (set_heater (PyInt 9)) (roasting [] []) in
  command_queue (self w) = replicate 6 AILLIO_CMD_HEATER_INCR ∧
  heater (self w) = PyInt 9.
Proof. by vm_compute. Qed.

Example set_fan_20_from_1 :
  let w := after (set_fan (PyInt 20)) new_object in
  command_queue (self w) = replicate 11 AILLIO_CMD_FAN_INCR ∧
  fan (self w) = PyInt 12.
Proof. by vm_compute. Qed.

Example set_heater_down :
  let w := after (set_heater (PyInt (-4))) (roasting [] []) in
  command_queue (self w) = replicate 3 AILLIO_CMD_HEATER_DECR ∧
  heater (self w) = PyInt 0.
Proof. by vm_compute. Qed.

(** ** Equal targets *)

(** C2, as stated, at [set_drum]: after [set_drum(4)] the held drum value is
    4, and a second [set_drum(4)] still appends a command. *)
Lemma set_drum_same_value_counterexample :
  let w := after (set_drum (PyInt 4)) new_object in
  drum (self w) = PyInt (clamp 1 9 4) ∧
  command_queue (self w) = [drum_command 4] ∧
  command_queue (self (after (set_drum (PyInt 4)) w))
    = [drum_command 4; drum_command 4] ∧
  after (set_drum (PyInt 4)) w ≠ w.
Proof. split_and!; [by vm_compute..|]. intros E. by vm_compute in E. Qed.

(** C2, amended. [set_heater] and [set_fan] are no-ops when the clamped
    target equals the held value: the call returns normally and leaves the
    queue, every attribute and the device untouched. [set_drum] is not: it
    always appends exactly one drum command carrying the clamped value and
    stores that value, whatever value is held. *)
Theorem equal_target_setters (w : world) (value : pynum) (v : Z) :
  py_int value = inr v →
  (py_eqZ (heater (self w)) (clamp 0 9 v) = true →
     set_heater value w = (inr tt, w)) ∧
  (py_eqZ (fan (self w)) (clamp 1 12 v) = true →
     set_fan value w = (inr tt, w)) ∧
  set_drum value w =
    (inr tt,
     {| self := with_drum (PyInt (clamp 1 9 v))
                  (with_command_queue
                     (command_queue (self w) ++ [drum_command (clamp 1 9 v)])
                     (self w));
        wire := wire w |}).
Proof.
  intros Hv. split_and!.
  - intros Hc%py_eqZ_int. rewrite (set_heater_run _ _ _ _ Hv Hc).
    by rewrite Z.eqb_refl.
  - intros Hc%py_eqZ_int. rewrite (set_fan_run _ _ _ _ Hv Hc).
    by rewrite Z.eqb_refl.
  - by apply set_drum_run.
Qed.

Lemma equal_target_setters_witness :
  (py_eqZ (heater (self new_object)) (clamp 0 9 0) = true →
     set_heater (PyInt 0) new_object = (inr tt, new_object)) ∧
  (py_eqZ (fan (self new_object)) (clamp 1 12 0) = true →
     set_fan (PyInt 0) new_object = (inr tt, new_object)) ∧
  set_drum (PyInt 0) new_object =
    (inr tt,
     {| self := with_drum (PyInt (clamp 1 9 0))
                  (with_command_queue
                     (command_queue (self new_object)
                        ++ [drum_command (clamp 1 9 0)])
                     (self new_object));
        wire := wire new_object |}).
Proof. apply (equal_target_setters new_object (PyInt 0) 0). reflexivity. Defined.

(** ** Fractional arguments *)



(** [set_heater(8.9)] holds 8, [set_drum(-2.5)] holds the lower bound 1 and
    [set_fan(12.75)] holds 12. *)
Example set_heater_8_9 :
  py_int (PyFloat f8_9) = inr 8 ∧
  heater (self (after (set_heater (PyFloat f8_9)) new_object)) = PyInt 8 ∧
  drum (self (after (set_drum (PyFloat (float_of_scaled (-5) (-1)))) new_object))
    = PyInt 1 ∧
  fan (self (after (set_fan (PyFloat (float_of_scaled 51 (-2))))
                (roasting [] [])))
    = PyInt 12.
Proof. by vm_compute. Qed.

(** ** State labels *)


(** The six labels, and the unknown state 0x0A of the specification. *)
Example state_labels :
  (λ st, state_str (self (after _update_state_string
      {| self := with_state st (with_state_str "kept" __init__);
         wire := [] |})))
    <$> [0x00; 0x02; 0x04; 0x06; 0x08; 0x09; 0x0A; 0x01; 0xFF]
  = ["off"; "pre-heating"; "charge"; "roasting"; "cooling"; "shutdown";
     "kept"; "kept"; "kept"]%string.
Proof. by vm_compute. Qed.

(** ** One tick: drain and poll *)

(** C3, as stated: a tick on a queue of one command, with the interval
    elapsed, writes the command and then performs the whole status round
    trip and decodes it. *)
Lemma drain_and_poll_same_tick_counterexample :
  let w := roasting [Some sample_reply1; Some sample_reply2]
             [AILLIO_CMD_HEATER_INCR] in
  let tick := @update_readings little_endian_host f1000 in
  command_queue (self w) = [AILLIO_CMD_HEATER_INCR] ∧
  outcome tick w = inr true ∧
  command_queue (self (after tick w)) = [] ∧
  wire (after tick w) =
    UsbWrite AILLIO_ENDPOINT_WR AILLIO_CMD_HEATER_INCR
      :: Sleep settle_delay :: round_trip_traffic ∧
  bt (self (after tick w)) ≠ bt (self w).
Proof. split_and!; [by vm_compute..|]. intros E. by vm_compute in E. Qed.

(** The queue and the traffic of a tick. *)
Lemma tick_queue_and_wire `{Host} (current_time : float) (w : world) :
  let w' := after (update_readings current_time) w in
  command_queue (self w') = tail (command_queue (self w)) ∧
  wire w' =
    wire w ++ drain_traffic (self w)
      ++ (if too_soon current_time (self w) then []
          else poll_traffic (self w)).
Proof.
  unfold after. rewrite update_readings_run. simpl. split; [|done].
  by destruct (poll_frame current_time (drained (self w))) as (-> & _).
Qed.

(** C3, amended. A tick never raises. If the queue is not empty it pops
    exactly the first command, writes it when a handle is open and sleeps
    the settle delay; then, whether or not a command was drained, it goes on
    to the status update, which performs the round trip exactly when the
    interval has elapsed. A drain and a status poll can share a tick. *)
Theorem tick_drains_then_polls `{Host} (current_time : float) (w : world) :
  let w' := after (update_readings current_time) w in
  (∃ b, outcome (update_readings current_time) w = inr b) ∧
  command_queue (self w') = tail (command_queue (self w)) ∧
  wire w' =
    wire w ++ drain_traffic (self w)
      ++ (if too_soon current_time (self w) then []
          else poll_traffic (self w)).
Proof.
  split; [|apply tick_queue_and_wire].
  unfold outcome. rewrite update_readings_run. by eexists.
Qed.

(** ** The recorded poll time *)

(** C5, as stated: with a handle whose reads fail the status update returns
    False, yet the recorded time moves from 0.0 to the time of the tick. *)
Lemma failed_poll_moves_timestamp_counterexample :
  let w := roasting [] [] in
  let tick := @update_readings little_endian_host f1000 in
  status_replies (self w) = (None, None) ∧
  outcome tick w = inr false ∧
  last_status_update (self w) = S754_zero false ∧
  last_status_update (self (after tick w)) = f1000.
Proof. by vm_compute. Qed.

(** C5, amended. The recorded time is the time of the last attempted poll:
    a tick stores the current time exactly when the interval has elapsed,
    before it sends the status commands and whatever comes of the replies;
    a tick inside the interval keeps the recorded time. A tick that returns
    True has stored the current time. *)
Theorem timestamp_records_attempt `{Host} (current_time : float) (w : world) :
  let w' := after (update_readings current_time) w in
  last_status_update (self w') =
    (if too_soon current_time (self w) then last_status_update (self w)
     else current_time) ∧
  match outcome (update_readings current_time) w with
  | inr true => last_status_update (self w') = current_time
  | _ => True
  end.
Proof.
  unfold after, outcome. rewrite update_readings_run. simpl.
  destruct (poll_frame current_time (drained (self w))) as (_ & _ & _ & Ht).
  split; [done|].
  destruct (poll current_time (drained (self w))).1 eqn:Hb; [|done].
  rewrite Ht. unfold poll in Hb.
  change (too_soon current_time (drained (self w)))
    with (too_soon current_time (self w)) in *.
  by destruct (too_soon current_time (self w)).
Qed.

(** ** Rate limit *)

(** A tick inside the interval with nothing to drain does nothing at all. *)
Lemma gated_tick_is_silent `{Host} (current_time : float) (w : world) :
  command_queue (self w) = [] →
  too_soon current_time (self w) = true →
  update_readings current_time w = (inr false, w).
Proof.
  intros Hq Hs. rewrite update_readings_run.
  unfold poll, poll_wire, drain_traffic.
  change (too_soon current_time (drained (self w)))
    with (too_soon current_time (self w)).
  rewrite Hs, Hq. simpl. rewrite app_nil_r.
  unfold drained. rewrite Hq. simpl. rewrite <- Hq at 1.
  by rewrite with_command_queue_same, world_eta.
Qed.

(** C8. Take two ticks with nothing to drain, at [t1] and then at [t2], the
    second less than the interval after the poll time recorded when it
    starts. The second tick sends no command, reads no reply and changes
    nothing. So when the first tick polls, it records [t1] and the two
    ticks together perform exactly one status round trip: the two status
    commands and the two reads, once, when a handle is open. *)
Theorem poll_is_rate_limited `{Host} (w : world) (t1 t2 : float) :
  let w1 := after (update_readings t1) w in
  let w2 := after (update_readings t2) w1 in
  command_queue (self w) = [] →
  too_soon t2 (self w1) = true →
  update_readings t2 w1 = (inr false, w1) ∧
  wire w2 = wire w1 ∧
  (too_soon t1 (self w) = false →
     last_status_update (self w1) = t1 ∧
     too_soon t2 (self w1)
       = flt (fsub t2 t1) (status_update_interval (self w)) ∧
     wire w2 = wire w ++ poll_traffic (self w)) ∧
  (is_Some (usbhandle (self w)) → poll_traffic (self w) = round_trip_traffic).
Proof.
  intros w1 w2 Hq Hs2.
  destruct (tick_queue_and_wire t1 w) as (Hq1 & Hw1).
  fold w1 in Hq1, Hw1. rewrite Hq in Hq1. simpl in Hq1.
  assert (update_readings t2 w1 = (inr false, w1)) as Hsilent
    by by apply gated_tick_is_silent.
  assert (wire w2 = wire w1) as Hw2 by (unfold w2, after; by rewrite Hsilent).
  split_and!; [done..| |].
  - intros Hs1.
    assert (last_status_update (self w1) = t1
            ∧ status_update_interval (self w1)
              = status_update_interval (self w))
      as [Ht1 Hi1].
    { unfold w1, after. rewrite update_readings_run. simpl.
      destruct (poll_frame t1 (drained (self w))) as (_ & Hi & _ & Ht).
      change (too_soon t1 (drained (self w))) with (too_soon t1 (self w)) in Ht.
      by rewrite Hs1 in Ht. }
    split_and!; [done| |].
    + unfold too_soon. by rewrite Ht1, Hi1.
    + rewrite Hw2, Hw1, Hs1. unfold drain_traffic. by rewrite Hq.
  - intros [dev Hdev]. unfold poll_traffic. by rewrite Hdev.
Qed.

Lemma poll_is_rate_limited_witness :
  let w := roasting [Some sample_reply1; Some sample_reply2] [] in
  let w1 := after (@update_readings little_endian_host f1000) w in
  let w2 := after (@update_readings little_endian_host f1000_0625) w1 in
  @update_readings little_endian_host f1000_0625 w1 = (inr false, w1) ∧
  wire w2 = wire w1 ∧
  (too_soon f1000 (self w) = false →
     last_status_update (self w1) = f1000 ∧
     too_soon f1000_0625 (self w1)
       = flt (fsub f1000_0625 f1000) (status_update_interval (self w)) ∧
     wire w2 = wire w ++ poll_traffic (self w)) ∧
  (is_Some (usbhandle (self w)) → poll_traffic (self w) = round_trip_traffic).
Proof.
  apply (@poll_is_rate_limited little_endian_host
           (roasting [Some sample_reply1; Some sample_reply2] [])
           f1000 f1000_0625); by vm_compute.
Defined.

(** The two ticks of the witness on the wire: one round trip. *)
Example two_ticks_one_round_trip :
  let w := roasting [Some sample_reply1; Some sample_reply2] [] in
  let w1 := after (@update_readings little_endian_host f1000) w in
  let w2 := after (@update_readings little_endian_host f1000_0625) w1 in
  wire w1 = round_trip_traffic ∧ wire w2 = round_trip_traffic ∧
  outcome (@update_readings little_endian_host f1000) w = inr true ∧
  outcome (@update_readings little_endian_host f1000_0625) w1 = inr false.
Proof. by vm_compute. Qed.

(** ** Rejected and accepted snapshots *)

Lemma status_model_polled (current_time : float) (o : AillioR1Demo) :
  status_model (polled (with_last_status_update current_time o))
    = status_model o.
Proof. unfold polled. simpl. by destruct (usbhandle o). Qed.

(** C4, as stated, at a short reply: the second reply has one byte instead
    of 64; the decoder accepts the 65 bytes all the same, returns True and
    replaces the bean temperature 200.0 by 201.5. *)
Lemma short_reply_decoded_counterexample :
  let w := roasting [Some sample_reply1; Some short_reply2] [] in
  let poll_status := @_update_status little_endian_host f1000 in
  status_replies (self w) = (Some sample_reply1, Some short_reply2) ∧
  length short_reply2 = 1%nat ∧
  bt (self w) = f200 ∧
  outcome poll_status w = inr true ∧
  bt (self (after poll_status w)) = float_of_scaled 403 (-1) ∧
  status_model (self (after poll_status w)) ≠ status_model (self w).
Proof. split_and!; [by vm_compute..|]. intros E. by vm_compute in E. Qed.

(** C4, amended. Whenever a reply is missing or empty, or the concatenated
    replies are shorter than 42 bytes, or the byte at offset 41 is not 10
    (whatever the length of the buffer), the status update returns False
    and leaves every attribute of the Status Model at its prior value. *)
Theorem rejected_snapshot_keeps_status `{Host} (current_time : float)
    (w : world) :
  (∀ buf, status_buffer (self w) = Some buf → byte_at buf 41 ≠ Some 10) →
  outcome (_update_status current_time) w = inr false ∧
  status_model (self (after (_update_status current_time) w))
    = status_model (self w).
Proof.
  intros Hrej. unfold outcome, after. rewrite update_status_run. simpl.
  unfold poll. destruct (too_soon current_time (self w)); [done|].
  destruct (status_buffer (self w)) as [buf|] eqn:Hbuf.
  - unfold accepted. rewrite bool_decide_eq_false_2 by by apply Hrej.
    simpl. by rewrite status_model_polled.
  - simpl. by rewrite status_model_polled.
Qed.

Lemma rejected_snapshot_keeps_status_witness :
  let w := roasting [Some stale_reply1; Some sample_reply2] [] in
  bt (self w) = f200 ∧
  outcome (@_update_status little_endian_host f1000) w = inr false ∧
  status_model (self (after (@_update_status little_endian_host f1000) w))
    = status_model (self w).
Proof.
  split; [reflexivity|].
  apply (@rejected_snapshot_keeps_status little_endian_host f1000
           (roasting [Some stale_reply1; Some sample_reply2] [])).
  intros buf Hbuf. vm_compute in Hbuf. injection Hbuf as <-.
  by vm_compute.
Defined.

(** The ways a snapshot is rejected: too short for the marker, or another
    marker; and no buffer at all when a reply is missing or empty. *)
Lemma rejected_snapshot_cases `{Host} (o : AillioR1Demo) (buf : list byte) :
  status_buffer o = Some buf →
  (length buf < 42)%nat ∨ (∃ b, buf !! 41%nat = Some b ∧ byte_val b ≠ 10) →
  byte_at buf 41 ≠ Some 10.
Proof.
  intros _ [Hlen|(b & Hb & Hne)]; unfold byte_at.
  - by rewrite lookup_ge_None_2 by lia.
  - rewrite Hb. simpl. by intros [= ?].
Qed.

Lemma missing_reply_no_buffer (o : AillioR1Demo) :
  truthy (status_replies o).1 = false ∨ truthy (status_replies o).2 = false →
  status_buffer o = None.
Proof.
  unfold status_buffer. destruct (status_replies o) as [state1 state2]. simpl.
  by intros [-> | ->]; rewrite ?andb_false_r.
Qed.

(** A buffer of 42 to 49 bytes with the marker set: the decoder has stored
    the fields up to the fan speed when unpacking the voltage raises, and
    the update returns False with the Status Model partly rewritten. *)
Example truncated_snapshot_partial_update :
  let w := roasting [Some cut_reply1; Some cut_reply2] [] in
  let poll_status := @_update_status little_endian_host f1000 in
  outcome poll_status w = inr false ∧
  bt (self (after poll_status w)) = float_of_scaled 403 (-1) ∧
  heater (self (after poll_status w)) = PyInt 7 ∧
  fan_rpm (self (after poll_status w)) = PyInt 1200 ∧
  voltage (self (after poll_status w)) = voltage (self w).
Proof. by vm_compute. Qed.

Lemma byte_at_present (buf : list byte) (i : nat) :
  (i < length buf)%nat →
  byte_at buf i = Some (nth_byte buf i) ∧ 0 ≤ nth_byte buf i ≤ 255.
Proof.
  intros Hi. unfold nth_byte, byte_at.
  destruct (lookup_lt_is_Some_2 buf i Hi) as [b ->]. simpl.
  split; [done|apply byte_val_range].
Qed.

Lemma float_at_ignores_legacy `{Host} (buf legacy : list byte) :
  length legacy = 4%nat →
  float_at (legacy ++ drop 4 buf) 36 = float_at buf 36.
Proof.
  intros Hl. unfold float_at. do 3 f_equal. simpl.
  rewrite !lookup_app_r, Hl, !lookup_drop by lia. done.
Qed.

(** ** The formats of the fields *)

Lemma digits2_pos_lower (m : positive) :
  2 ^ (Z.pos (digits2_pos m) - 1) ≤ Z.pos m.
Proof.
  induction m as [m IH|m IH|]; simpl; [| |done].
  - rewrite Pos2Z.inj_succ.
    replace (Z.succ (Z.pos (digits2_pos m)) - 1)
      with (Z.succ (Z.pos (digits2_pos m) - 1)) by lia.
    rewrite Z.pow_succ_r by lia. lia.
  - rewrite Pos2Z.inj_succ.
    replace (Z.succ (Z.pos (digits2_pos m)) - 1)
      with (Z.succ (Z.pos (digits2_pos m) - 1)) by lia.
    rewrite Z.pow_succ_r by lia. lia.
Qed.

Lemma iter_xO_value (m p : positive) :
  Z.pos (Pos.iter xO m p) = Z.pos m * 2 ^ Z.pos p.
Proof.
  induction p as [|p IH] using Pos.peano_ind; [simpl; lia|].
  rewrite Pos.iter_succ, Pos2Z.inj_succ, Z.pow_succ_r by lia.
  rewrite Pos2Z.inj_xO, IH. lia.
Qed.

Lemma iter_xO_digits (m p : positive) :
  Z.pos (digits2_pos (Pos.iter xO m p)) = Z.pos (digits2_pos m) + Z.pos p.
Proof.
  induction p as [|p IH] using Pos.peano_ind; [simpl; lia|].
  rewrite Pos.iter_succ. simpl. rewrite Pos2Z.inj_succ, IH. lia.
Qed.

(** Rounding a number of fewer than 53 bits in the normal range is exact:
    the mantissa is shifted up to 53 bits. *)
Lemma binary_round_exact (s : bool) (m : positive) (e : Z) :
  Z.pos (digits2_pos m) < 53 →
  -1074 ≤ e + Z.pos (digits2_pos m) - 53 →
  e + Z.pos (digits2_pos m) ≤ 1024 →
  ∃ m' e',
    binary_round 53 1024 s m e = S754_finite s m' e' ∧
    bounded 53 1024 m' e' = true ∧
    -1074 ≤ e' ∧
    Z.pos m' * 2 ^ (e' + 1074) = Z.pos m * 2 ^ (e + 1074).
Proof.
  intros Hd Hlo Hhi.
  set (d := Z.pos (digits2_pos m)) in *.
  assert (fexp 53 1024 (d + e) = d + e - 53) as Hf.
  { unfold fexp, emin. lia. }
  unfold binary_round. fold d. rewrite Hf. unfold shl_align.
  destruct (d + e - 53 - e) as [| |p] eqn:Hp; [lia..|].
  assert (Z.pos p = 53 - d) as Hp' by lia.
  exists (Pos.iter xO m p), (d + e - 53).
  assert (Z.pos (digits2_pos (Pos.iter xO m p)) = 53) as Hd'.
  { rewrite iter_xO_digits. fold d. lia. }
  assert (fexp 53 1024 (53 + (d + e - 53)) = d + e - 53) as Hf'.
  { unfold fexp, emin. lia. }
  split_and!.
  - unfold binary_round_aux, shr_fexp. simpl Zdigits2. rewrite Hd', Hf'.
    rewrite Z.sub_diag. simpl. rewrite Hd', Hf', Z.sub_diag. simpl.
    destruct (Z.leb_spec (d + e - 53) (1024 - 53)); [done|lia].
  - unfold bounded, canonical_mantissa. rewrite Hd', Hf'.
    rewrite Z.eqb_refl. simpl. apply Z.leb_le. lia.
  - lia.
  - rewrite iter_xO_value, Hp'.
    replace (e + 1074) with ((53 - d) + (d + e - 53 + 1074)) by lia.
    rewrite (Z.pow_add_r 2 (53 - d)) by lia. lia.
Qed.

(** The decoder's reading of a 32-bit pattern is its IEEE 754 binary32
    value. *)
Lemma float_of_bits32_binary32 (bits : Z) :
  0 ≤ bits < 2 ^ 32 → binary32_value bits (float_of_bits32 bits).
Proof.
  intros Hb. unfold binary32_value, float_of_bits32.
  assert (Z.testbit bits 31 = (2 ^ 31 <=? bits)) as ->.
  { destruct (Z.leb_spec (2 ^ 31) bits) as [Hs|Hs].
    - apply Z.testbit_true; [lia|].
      replace (bits / 2 ^ 31) with 1; [done|].
      apply Z.div_unique with (bits - 2 ^ 31); lia.
    - apply Z.testbit_false; [lia|]. by rewrite Z.div_small by lia. }
  assert (Z.land (Z.shiftr bits 23) 255 = (bits / 2 ^ 23) mod 2 ^ 8) as ->.
  { rewrite Z.shiftr_div_pow2 by lia. change 255 with (Z.ones 8).
    by rewrite Z.land_ones by lia. }
  assert (Z.land bits 8388607 = bits mod 2 ^ 23) as ->.
  { change 8388607 with (Z.ones 23). by rewrite Z.land_ones by lia. }
  set (sign := 2 ^ 31 <=? bits).
  set (biased := (bits / 2 ^ 23) mod 2 ^ 8).
  set (fraction := bits mod 2 ^ 23).
  assert (0 ≤ biased < 256) as Hbiased by (apply Z.mod_pos_bound; lia).
  assert (0 ≤ fraction < 2 ^ 23) as Hfraction by (apply Z.mod_pos_bound; lia).
  destruct (Z.eqb_spec biased 255) as [|H255]; [done|].
  assert (∀ M e, 0 < M < 2 ^ 24 → -149 ≤ e ≤ 104 →
            ∃ m' e', float_of_scaled (signed sign M) e
                       = S754_finite sign m' e' ∧
              valid_binary 53 1024 (S754_finite sign m' e') = true ∧
              Z.pos m' * 2 ^ (e' + 1074) = M * 2 ^ (e + 1074)) as Hexact.
  { intros M e HM He. destruct M as [|p|p]; [lia| |lia].
    pose proof (digits2_pos_lower p) as Hlow.
    assert (Z.pos (digits2_pos p) ≤ 24) as Hd.
    { destruct (Z.le_gt_cases (Z.pos (digits2_pos p)) 24) as [|Hgt]; [done|].
      assert (2 ^ 24 ≤ 2 ^ (Z.pos (digits2_pos p) - 1))
        by (apply Z.pow_le_mono_r; lia). lia. }
    destruct (binary_round_exact sign p e) as (m' & e' & Hr & Hv & _ & Hval);
      [lia..|].
    exists m', e'. split_and!; [|done..].
    unfold float_of_scaled, binary_normalize, prec64, emax64.
    by destruct sign. }
  destruct (Z.eqb_spec biased 0) as [H0|H0]; simpl.
  - destruct (Z.eqb_spec fraction 0) as [|HF]; [done|].
    destruct (Hexact fraction (-149)) as (m' & e' & -> & Hv & Hval);
      [lia..|].
    by exists m', e'.
  - destruct (Hexact (8388608 + fraction) (biased - 150))
      as (m' & e' & -> & Hv & Hval); [lia..|].
    by exists m', e'.
Qed.

Lemma native_uint_at_4 `{Host} (buf : list byte) (i : nat) :
  (i + 4 ≤ length buf)%nat →
  le_uint (in_native_order
             (omap (λ k, buf !! k) [i; S i; S (S i); S (S (S i))]))
    = native_uint_at buf i 4.
Proof.
  intros Hi.
  destruct (lookup_lt_is_Some_2 buf i) as [b0 H0]; [lia|].
  destruct (lookup_lt_is_Some_2 buf (S i)) as [b1 H1]; [lia|].
  destruct (lookup_lt_is_Some_2 buf (S (S i))) as [b2 H2]; [lia|].
  destruct (lookup_lt_is_Some_2 buf (S (S (S i)))) as [b3 H3]; [lia|].
  unfold native_uint_at, nth_byte, byte_at. simpl.
  replace (i + 0)%nat with i by lia. replace (i + 1)%nat with (S i) by lia.
  replace (i + 2)%nat with (S (S i)) by lia.
  replace (i + 3)%nat with (S (S (S i))) by lia.
  rewrite H0, H1, H2, H3. unfold in_native_order.
  destruct native; simpl; lia.
Qed.

Lemma native_uint_at_2 `{Host} (buf : list byte) (i : nat) :
  (i + 2 ≤ length buf)%nat →
  le_uint (in_native_order (omap (λ k, buf !! k) [i; S i]))
    = native_uint_at buf i 2.
Proof.
  intros Hi.
  destruct (lookup_lt_is_Some_2 buf i) as [b0 H0]; [lia|].
  destruct (lookup_lt_is_Some_2 buf (S i)) as [b1 H1]; [lia|].
  unfold native_uint_at, nth_byte, byte_at. simpl.
  replace (i + 0)%nat with i by lia. replace (i + 1)%nat with (S i) by lia.
  rewrite H0, H1. unfold in_native_order.
  destruct native; simpl; lia.
Qed.

(** On a buffer that holds the field, the decoder's float is the binary32
    value of the four bytes, and its 16-bit integer is the two's-complement
    reading of the two bytes. *)
Lemma float_at_binary32 `{Host} (buf : list byte) (i : nat) :
  (i + 4 ≤ length buf)%nat →
  binary32_value (native_uint_at buf i 4) (float_at buf i).
Proof.
  intros Hi. unfold float_at. rewrite <- (native_uint_at_4 buf i Hi).
  apply float_of_bits32_binary32.
  pose proof (le_uint_bound
    (in_native_order (omap (λ k, buf !! k) [i; S i; S (S i); S (S (S i))])))
    as Hb.
  rewrite in_native_order_length in Hb.
  assert (length (omap (λ k, buf !! k) [i; S i; S (S i); S (S (S i))])
          ≤ 4)%nat as Hl.
  { simpl. destruct (buf !! i), (buf !! S i), (buf !! S (S i)),
      (buf !! S (S (S i))); simpl; lia. }
  assert (256 ^ Z.of_nat
            (length (omap (λ k, buf !! k) [i; S i; S (S i); S (S (S i))]))
          ≤ 256 ^ 4) by (apply Z.pow_le_mono_r; lia).
  lia.
Qed.

Lemma int16_at_twos_complement `{Host} (buf : list byte) (i : nat) :
  (i + 2 ≤ length buf)%nat →
  int16_at buf i mod 65536 = native_uint_at buf i 2.
Proof.
  intros Hi. unfold int16_at. rewrite int16_of_bits_mod.
  rewrite (native_uint_at_2 buf i Hi). apply Z.mod_small.
  rewrite <- (native_uint_at_2 buf i Hi).
  pose proof (le_uint_bound
    (in_native_order (omap (λ k, buf !! k) [i; S i]))) as Hb.
  rewrite in_native_order_length in Hb.
  assert (length (omap (λ k, buf !! k) [i; S i]) ≤ 2)%nat as Hl.
  { simpl. destruct (buf !! i), (buf !! S i); simpl; lia. }
  assert (256 ^ Z.of_nat (length (omap (λ k, buf !! k) [i; S i])) ≤ 256 ^ 2)
    by (apply Z.pow_le_mono_r; lia).
  lia.
Qed.

(** The number the decoder stores for a byte is the number of that byte. *)
Lemma nth_byte_of_N (buf : list byte) (i : nat) :
  (i < length buf)%nat →
  Byte.of_N (Z.to_N (nth_byte buf i)) = buf !! i.
Proof.
  intros Hi. destruct (lookup_lt_is_Some_2 buf i Hi) as [b Hb].
  unfold nth_byte, byte_at. rewrite Hb. simpl. unfold byte_val.
  rewrite N2Z.id. apply Byte.of_to_N.
Qed.

(** C6. When the status update polls and the device answers with two
    64-byte replies whose byte 41 is 10, the update returns True and the
    attributes hold: the rate of rise, the drum temperature and the bean
    temperature, each the 32-bit float at bytes 4-8, 8-12 and 36-40 in
    native order, rounded to one decimal; fan, heater, drum and state, the
    unsigned bytes at 26, 27, 28 and 29; fan rpm and voltage, the signed
    16-bit integers at bytes 44-46 and 48-50. The bean temperature does not
    depend on the legacy field at bytes 0-4. The formats are the documented
    ones: each float is the IEEE 754 binary32 value of its four bytes read
    as one number in native order, each 16-bit integer is the number in
    -32768..32767 congruent modulo 65536 to its two bytes read in native
    order, and each single byte is stored as the number of that byte. *)
Theorem accepted_snapshot_fields `{Host} (current_time : float) (w : world)
    (state1 state2 : list byte) :
  too_soon current_time (self w) = false →
  status_replies (self w) = (Some state1, Some state2) →
  length state1 = 64%nat →
  length state2 = 64%nat →
  byte_at (state1 ++ state2) 41 = Some 10 →
  let buf := state1 ++ state2 in
  let o' := self (after (_update_status current_time) w) in
  outcome (_update_status current_time) w = inr true ∧
  bt_ror o' = round1 (float_at buf 4) ∧
  dt o' = round1 (float_at buf 8) ∧
  fan o' = PyInt (nth_byte buf 26) ∧
  heater o' = PyInt (nth_byte buf 27) ∧
  drum o' = PyInt (nth_byte buf 28) ∧
  state o' = nth_byte buf 29 ∧
  bt o' = round1 (float_at buf 36) ∧
  fan_rpm o' = PyInt (int16_at buf 44) ∧
  voltage o' = PyInt (int16_at buf 48) ∧
  Forall (λ i, byte_at buf i = Some (nth_byte buf i)
               ∧ 0 ≤ nth_byte buf i ≤ 255) [26; 27; 28; 29]%nat ∧
  -32768 ≤ int16_at buf 44 < 32768 ∧
  -32768 ≤ int16_at buf 48 < 32768 ∧
  (∀ legacy, length legacy = 4%nat →
             float_at (legacy ++ drop 4 buf) 36
             = float_at buf 36) ∧
  binary32_value (native_uint_at buf 4 4) (float_at buf 4) ∧
  binary32_value (native_uint_at buf 8 4) (float_at buf 8) ∧
  binary32_value (native_uint_at buf 36 4) (float_at buf 36) ∧
  int16_at buf 44 mod 65536 = native_uint_at buf 44 2 ∧
  int16_at buf 48 mod 65536 = native_uint_at buf 48 2 ∧
  Forall (λ i, Byte.of_N (Z.to_N (nth_byte buf i)) = buf !! i)
    [26; 27; 28; 29]%nat.
Proof.
  intros Hs Hrep Hl1 Hl2 H41 buf o'.
  assert (length buf = 128%nat) as Hlen.
  { unfold buf. rewrite length_app. lia. }
  assert (status_buffer (self w) = Some buf) as Hbuf.
  { unfold status_buffer. rewrite Hrep.
    destruct state1; [done|]. by destruct state2. }
  assert (poll current_time (self w)
          = (true, decoded buf
                     (polled (with_last_status_update current_time (self w)))))
    as Hpoll.
  { unfold poll. rewrite Hs, Hbuf. unfold accepted.
    rewrite bool_decide_eq_true_2 by done. by rewrite Hlen. }
  unfold o', outcome, after. rewrite update_status_run, Hpoll. simpl.
  unfold polled. simpl.
  do 10 (split; [by destruct (usbhandle (self w))|]).
  split; [repeat constructor; apply (byte_at_present buf); lia|].
  split; [apply int16_at_range|]. split; [apply int16_at_range|].
  split; [intros legacy; apply float_at_ignores_legacy|].
  do 3 (split; [apply float_at_binary32; lia|]).
  do 2 (split; [apply int16_at_twos_complement; lia|]).
  repeat constructor; apply nth_byte_of_N; lia.
Qed.

Lemma accepted_snapshot_fields_witness :
  let w := roasting [Some sample_reply1; Some sample_reply2] [] in
  let buf := sample_reply1 ++ sample_reply2 in
  let o' := self (after (@_update_status little_endian_host f1000) w) in
  (status_model o'
   = (S754_finite false 7089650975899648 (-45),
      S754_finite false 5629499534213120 (-51),
      S754_finite false 6340223850407526 (-45),
      PyInt 5, PyInt 7, PyInt 4, 6, "roasting"%string,
      PyInt 1200, PyInt 230) ∧
   @float_at little_endian_host buf 36
   = S754_finite false 7088243837239296 (-45) ∧
   @float_at little_endian_host buf 8
   = S754_finite false 6341983069011968 (-45) ∧
   @native_uint_at little_endian_host buf 36 4 = 0x434975c3 ∧
   @native_uint_at little_endian_host buf 44 2 = 1200) ∧
  outcome (@_update_status little_endian_host f1000) w = inr true ∧
  bt_ror o' = round1 (@float_at little_endian_host buf 4) ∧
  dt o' = round1 (@float_at little_endian_host buf 8) ∧
  fan o' = PyInt (nth_byte buf 26) ∧
  heater o' = PyInt (nth_byte buf 27) ∧
  drum o' = PyInt (nth_byte buf 28) ∧
  state o' = nth_byte buf 29 ∧
  bt o' = round1 (@float_at little_endian_host buf 36) ∧
  fan_rpm o' = PyInt (@int16_at little_endian_host buf 44) ∧
  voltage o' = PyInt (@int16_at little_endian_host buf 48) ∧
  Forall (λ i, byte_at buf i = Some (nth_byte buf i)
               ∧ 0 ≤ nth_byte buf i ≤ 255) [26; 27; 28; 29]%nat ∧
  -32768 ≤ @int16_at little_endian_host buf 44 < 32768 ∧
  -32768 ≤ @int16_at little_endian_host buf 48 < 32768 ∧
  (∀ legacy, length legacy = 4%nat →
             @float_at little_endian_host (legacy ++ drop 4 buf) 36
             = @float_at little_endian_host buf 36) ∧
  binary32_value (@native_uint_at little_endian_host buf 4 4) (@float_at little_endian_host buf 4) ∧
  binary32_value (@native_uint_at little_endian_host buf 8 4) (@float_at little_endian_host buf 8) ∧
  binary32_value (@native_uint_at little_endian_host buf 36 4) (@float_at little_endian_host buf 36) ∧
  @int16_at little_endian_host buf 44 mod 65536 = @native_uint_at little_endian_host buf 44 2 ∧
  @int16_at little_endian_host buf 48 mod 65536 = @native_uint_at little_endian_host buf 48 2 ∧
  Forall (λ i, Byte.of_N (Z.to_N (nth_byte buf i)) = buf !! i)
    [26; 27; 28; 29]%nat.
Proof.
  split; [by vm_compute|].
  apply (@accepted_snapshot_fields little_endian_host f1000
           (roasting [Some sample_reply1; Some sample_reply2] [])
           sample_reply1 sample_reply2); by vm_compute.
Defined.

(** Values of the formats: the bytes 18 fc are -1000 on a little-endian
    host and 6396 on a big-endian one; the bytes 43 49 75 c3 read on a
    big-endian host are the float 201.46000671386719, the binary32 nearest
    to 201.46; [round] to one decimal takes 0.25 to 0.2 and 0.75 to 0.8
    (ties to the even digit), -0.01 to -0.0, -457.6000061 to -457.6 and
    leaves 8388609.0 as it is. *)
Example format_values :
  @int16_at little_endian_host (byte_of_Z <$> [0x18; 0xfc]) 0 = -1000 ∧
  @int16_at {| native := BigEndian |} (byte_of_Z <$> [0x18; 0xfc]) 0 = 6396 ∧
  @float_at {| native := BigEndian |}
     (byte_of_Z <$> [0x43; 0x49; 0x75; 0xc3]) 0
  = S754_finite false 7088243837239296 (-45) ∧
  (λ bits, round1 (float_of_bits32 bits))
    <$> [0x3e800000; 0x3f400000; 0xbc23d70a; 0xc3e4cccd; 0x4b000001]
  = [S754_finite false 7205759403792794 (-55);
     S754_finite false 7205759403792794 (-53);
     S754_zero true;
     S754_finite true 8050184333924762 (-44);
     S754_finite false 4503600164241408 (-29)].
Proof. by vm_compute. Qed.

(** The sample replies decoded: 201.5, 2.5, 180.2 (180.25 rounds to the
    even digit), fan 5, heater 7, drum 4, roasting, 1200 rpm, 230 V. *)
Example sample_snapshot_decoded :
  let w := roasting [Some sample_reply1; Some sample_reply2] [] in
  status_model (self (after (@_update_status little_endian_host f1000) w))
  = (float_of_scaled 403 (-1), float_of_scaled 5 (-1),
     float_of_scaled 6340223850407526 (-45), PyInt 5, PyInt 7, PyInt 4, 6,
     "roasting"%string, PyInt 1200, PyInt 230).
Proof. by vm_compute. Qed.

(** The unknown state byte 0x0A arrives in an accepted snapshot: the state
    becomes 10 and the label held before stays. *)
Example unknown_state_keeps_label :
  let w := roasting [Some unknown_state_reply1; Some sample_reply2] [] in
  let w' := after (@_update_status little_endian_host f1000) w in
  state (self w') = 10 ∧ state_str (self w') = "roasting"%string.
Proof. by vm_compute. Qed.

(** ** Ranges of the setpoints *)

Lemma py_between_clamp (lo hi v : Z) :
  lo ≤ hi → py_between lo hi (PyInt (clamp lo hi v)) = true.
Proof.
  intros Hle. pose proof (clamp_range lo hi v Hle). simpl.
  apply andb_true_iff. split; apply Z.leb_le; lia.
Qed.

(** A step setter writes at most its own attribute, and then a clamped
    value; this holds for every argument, also one that makes it raise. *)
Lemma set_heater_frame (value : pynum) (w : world) :
  let o' := self (after (set_heater value) w) in
  fan o' = fan (self w) ∧ drum o' = drum (self w) ∧
  (heater o' = heater (self w) ∨ ∃ v, heater o' = PyInt (clamp 0 9 v)).
Proof.
  unfold after.
  destruct (py_int value) as [e|v] eqn:Hv.
  { rewrite (proj1 (setter_raises value e w Hv)). simpl. by eauto. }
  destruct (py_int (heater (self w))) as [e|cur] eqn:Hc.
  { unfold set_heater. rewrite Hv. mred. rewrite Hc. simpl. by eauto. }
  rewrite (set_heater_run _ _ _ _ Hv Hc). simpl.
  destruct (clamp 0 9 v =? cur); simpl; eauto.
Qed.

Lemma set_fan_frame (value : pynum) (w : world) :
  let o' := self (after (set_fan value) w) in
  heater o' = heater (self w) ∧ drum o' = drum (self w) ∧
  (fan o' = fan (self w) ∨ ∃ v, fan o' = PyInt (clamp 1 12 v)).
Proof.
  unfold after.
  destruct (py_int value) as [e|v] eqn:Hv.
  { rewrite (proj1 (proj2 (setter_raises value e w Hv))). simpl. by eauto. }
  destruct (py_int (fan (self w))) as [e|cur] eqn:Hc.
  { unfold set_fan. rewrite Hv. mred. rewrite Hc. simpl. by eauto. }
  rewrite (set_fan_run _ _ _ _ Hv Hc). simpl.
  destruct (clamp 1 12 v =? cur); simpl; eauto.
Qed.

Lemma set_drum_frame (value : pynum) (w : world) :
  let o' := self (after (set_drum value) w) in
  heater o' = heater (self w) ∧ fan o' = fan (self w) ∧
  (drum o' = drum (self w) ∨ ∃ v, drum o' = PyInt (clamp 1 9 v)).
Proof.
  unfold after.
  destruct (py_int value) as [e|v] eqn:Hv.
  { rewrite (proj2 (proj2 (setter_raises value e w Hv))). simpl. by eauto. }
  rewrite (set_drum_run _ _ _ Hv). simpl. eauto.
Qed.

Lemma init_setpoints_in_range : setpoints_in_range __init__.
Proof. by vm_compute. Qed.

(** C7, as stated, at the status update: the object holds heater 3, fan 1
    and drum 1; the device reports a heater byte of 200 in a valid snapshot
    and the update stores it. *)
Lemma decoded_setpoint_out_of_range_counterexample :
  let w := roasting [Some overrange_reply1; Some sample_reply2] [] in
  let w' := after (@update_readings little_endian_host f1000) w in
  setpoints_in_range (self w) ∧
  heater (self w') = PyInt 200 ∧
  ¬ setpoints_in_range (self w').
Proof.
  split_and!; [by vm_compute..|].
  intros (Hh & _). by vm_compute in Hh.
Qed.

(** C7, amended. Heater in 0..9, fan in 1..12 and drum in 1..9 hold of a
    new object and are preserved by every call of a setter, whatever its
    argument: each setter clamps. The status update does not clamp: it
    stores the bytes at offsets 26, 27 and 28 of an accepted snapshot as
    they are, so a tick preserves the ranges when those bytes lie in
    them. *)
Theorem setpoint_ranges_preserved `{Host} (w : world) :
  setpoints_in_range (self w) →
  (∀ value, setpoints_in_range (self (after (set_heater value) w))) ∧
  (∀ value, setpoints_in_range (self (after (set_fan value) w))) ∧
  (∀ value, setpoints_in_range (self (after (set_drum value) w))) ∧
  (∀ current_time,
     (∀ buf, status_buffer (self w) = Some buf →
             byte_at buf 41 = Some 10 →
             1 ≤ nth_byte buf 26 ≤ 12 ∧ 0 ≤ nth_byte buf 27 ≤ 9 ∧
             1 ≤ nth_byte buf 28 ≤ 9) →
     setpoints_in_range (self (after (update_readings current_time) w))).
Proof.
  intros (Hh & Hf & Hd). unfold setpoints_in_range. split_and!.
  - intros value.
    destruct (set_heater_frame value w) as (-> & -> & [-> | [v ->]]);
      [done|]. by rewrite py_between_clamp.
  - intros value.
    destruct (set_fan_frame value w) as (-> & -> & [-> | [v ->]]);
      [done|]. by rewrite py_between_clamp.
  - intros value.
    destruct (set_drum_frame value w) as (-> & -> & [-> | [v ->]]);
      [done|]. by rewrite py_between_clamp.
  - intros current_time Hdev. unfold after.
    rewrite update_readings_run. simpl.
    destruct (poll_setpoints current_time (drained (self w)))
      as [(-> & -> & ->)|(buf & Hbuf & H41 & -> & -> & ->)]; [done|].
    destruct (Hdev buf Hbuf H41) as (? & ? & ?). simpl.
    rewrite !andb_true_iff, !Z.leb_le. lia.
Qed.

Lemma setpoint_ranges_preserved_witness :
  setpoints_in_range (self new_object) ∧
  (∀ value, setpoints_in_range (self (after (set_heater value) new_object))) ∧
  (∀ value, setpoints_in_range (self (after (set_fan value) new_object))) ∧
  (∀ value, setpoints_in_range (self (after (set_drum value) new_object))) ∧
  (∀ current_time,
     (∀ buf, status_buffer (self new_object) = Some buf →
             byte_at buf 41 = Some 10 →
             1 ≤ nth_byte buf 26 ≤ 12 ∧ 0 ≤ nth_byte buf 27 ≤ 9 ∧
             1 ≤ nth_byte buf 28 ≤ 9) →
     setpoints_in_range
       (self (after (@update_readings little_endian_host current_time)
                new_object))).
Proof.
  split; [by vm_compute|].
  apply (@setpoint_ranges_preserved little_endian_host new_object).
  by vm_compute.
Defined.

(** ** Setters in sequence *)

Lemma setter_frame_refl (o : AillioR1Demo) : setter_frame o o.
Proof. by repeat split. Qed.

Lemma replicate_setter_command (n : nat) (cmd : command) :
  setter_command cmd → Forall setter_command (replicate n cmd).
Proof. intros Hc. induction n; simpl; by constructor. Qed.

(** A call of a setter, with any argument: it appends commands of the
    setters to the queue and leaves the wire and the rest of the object
    alone. *)
Lemma perform_setter_effect `{Host} (c : call) (w : world) :
  is_setter c = true →
  ∃ added,
    command_queue (self (perform c w)) = command_queue (self w) ++ added ∧
    Forall setter_command added ∧
    wire (perform c w) = wire w ∧
    setter_frame (self w) (self (perform c w)).
Proof.
  assert (∀ w' : world, w' = w →
            ∃ added, command_queue (self w') = command_queue (self w) ++ added
              ∧ Forall setter_command added ∧ wire w' = wire w
              ∧ setter_frame (self w) (self w')) as Hsame.
  { intros w' ->. exists []. rewrite app_nil_r.
    split_and!; [done|constructor|done|apply setter_frame_refl]. }
  destruct c as [value|value|value|t]; [| | |done]; intros _;
    unfold perform, after.
  - destruct (py_int value) as [e|v] eqn:Hv.
    { rewrite (proj1 (setter_raises value e w Hv)). by apply Hsame. }
    destruct (py_int (heater (self w))) as [e|cur] eqn:Hc.
    { apply Hsame. unfold set_heater. rewrite Hv. mred. by rewrite Hc. }
    rewrite (set_heater_run _ _ _ _ Hv Hc). simpl.
    destruct (clamp 0 9 v =? cur); [by apply Hsame|].
    eexists. simpl. split_and!; [done| |done|by repeat split].
    apply replicate_setter_command. left.
    destruct (cur >? clamp 0 9 v); repeat constructor.
  - destruct (py_int value) as [e|v] eqn:Hv.
    { rewrite (proj1 (proj2 (setter_raises value e w Hv))). by apply Hsame. }
    destruct (py_int (fan (self w))) as [e|cur] eqn:Hc.
    { apply Hsame. unfold set_fan. rewrite Hv. mred. by rewrite Hc. }
    rewrite (set_fan_run _ _ _ _ Hv Hc). simpl.
    destruct (clamp 1 12 v =? cur); [by apply Hsame|].
    eexists. simpl. split_and!; [done| |done|by repeat split].
    apply replicate_setter_command. left.
    destruct (cur >? clamp 1 12 v); repeat constructor.
  - destruct (py_int value) as [e|v] eqn:Hv.
    { rewrite (proj2 (proj2 (setter_raises value e w Hv))). by apply Hsame. }
    rewrite (set_drum_run _ _ _ Hv). simpl.
    eexists. split_and!; [done| |done|by repeat split].
    constructor; [|constructor]. right. exists (clamp 1 9 v).
    split; [apply clamp_range; lia|done].
Qed.

Lemma net_steps_app (incr decr : command) (q1 q2 : list command) :
  net_steps incr decr (q1 ++ q2)
    = net_steps incr decr q1 + net_steps incr decr q2.
Proof. induction q1 as [|c q1 IH]; simpl; [done|]. rewrite IH. lia. Qed.

Lemma net_steps_replicate (incr decr cmd : command) (n : nat) :
  net_steps incr decr (replicate n cmd)
    = Z.of_nat n * net_steps incr decr [cmd].
Proof.
  induction n as [|n IH]; [done|].
  change (replicate (S n) cmd) with ([cmd] ++ replicate n cmd).
  rewrite net_steps_app, IH. lia.
Qed.

(** A call of a setter keeps both balances: what it adds to the held value
    it adds to the queue as steps. *)
Lemma perform_setter_balance `{Host} (c : call) (w : world) :
  is_setter c = true →
  balance heater AILLIO_CMD_HEATER_INCR AILLIO_CMD_HEATER_DECR
      (self (perform c w))
    = balance heater AILLIO_CMD_HEATER_INCR AILLIO_CMD_HEATER_DECR (self w) ∧
  balance fan AILLIO_CMD_FAN_INCR AILLIO_CMD_FAN_DECR (self (perform c w))
    = balance fan AILLIO_CMD_FAN_INCR AILLIO_CMD_FAN_DECR (self w).
Proof.
  destruct c as [value|value|value|t]; [| | |done]; intros _;
    unfold perform, after.
  - destruct (py_int value) as [e|v] eqn:Hv.
    { by rewrite (proj1 (setter_raises value e w Hv)). }
    destruct (py_int (heater (self w))) as [e|cur] eqn:Hc.
    { unfold set_heater. rewrite Hv. mred. by rewrite Hc. }
    rewrite (set_heater_run _ _ _ _ Hv Hc). simpl.
    destruct (Z.eqb_spec (clamp 0 9 v) cur) as [E|Hne]; [done|].
    unfold balance, stepped. simpl. rewrite Hc, !net_steps_app.
    rewrite !net_steps_replicate. split.
    + f_equal. destruct (Z.gtb_spec cur (clamp 0 9 v));
        vm_compute (net_steps _ _ [_]); lia.
    + destruct (py_int (fan (self w))); [done|]. f_equal.
      destruct (cur >? clamp 0 9 v); vm_compute (net_steps _ _ [_]); lia.
  - destruct (py_int value) as [e|v] eqn:Hv.
    { by rewrite (proj1 (proj2 (setter_raises value e w Hv))). }
    destruct (py_int (fan (self w))) as [e|cur] eqn:Hc.
    { unfold set_fan. rewrite Hv. mred. by rewrite Hc. }
    rewrite (set_fan_run _ _ _ _ Hv Hc). simpl.
    destruct (Z.eqb_spec (clamp 1 12 v) cur) as [E|Hne]; [done|].
    unfold balance, stepped. simpl. rewrite Hc, !net_steps_app.
    rewrite !net_steps_replicate. split.
    + destruct (py_int (heater (self w))); [done|]. f_equal.
      destruct (cur >? clamp 1 12 v); vm_compute (net_steps _ _ [_]); lia.
    + f_equal. destruct (Z.gtb_spec cur (clamp 1 12 v));
        vm_compute (net_steps _ _ [_]); lia.
  - destruct (py_int value) as [e|v] eqn:Hv.
    { by rewrite (proj2 (proj2 (setter_raises value e w Hv))). }
    rewrite (set_drum_run _ _ _ Hv). unfold balance. simpl.
    rewrite !net_steps_app.
    assert (∀ incr decr, incr ≠ drum_command (clamp 1 9 v) →
              decr ≠ drum_command (clamp 1 9 v) →
              net_steps incr decr [drum_command (clamp 1 9 v)] = 0) as Hz.
    { intros incr decr Hi Hd. unfold net_steps. simpl.
      by rewrite !bool_decide_eq_false_2 by done. }
    rewrite !Hz, !Z.add_0_r by (by intros [=]).
    by destruct (py_int (heater (self w))), (py_int (fan (self w))).
Qed.

(** X1. Over any sequence of setter calls, with any arguments, the held
    heater value less the net of the queued heater steps (increments less
    decrements) does not change, and likewise for the fan: the steps a
    sequence of calls leaves in the queue add up to the change of the held
    value. *)
Theorem setters_keep_balance `{Host} (calls : list call) (w : world) :
  forallb is_setter calls = true →
  balance heater AILLIO_CMD_HEATER_INCR AILLIO_CMD_HEATER_DECR
      (self (performs calls w))
    = balance heater AILLIO_CMD_HEATER_INCR AILLIO_CMD_HEATER_DECR (self w) ∧
  balance fan AILLIO_CMD_FAN_INCR AILLIO_CMD_FAN_DECR
      (self (performs calls w))
    = balance fan AILLIO_CMD_FAN_INCR AILLIO_CMD_FAN_DECR (self w).
Proof.
  revert w. induction calls as [|c calls IH]; intros w Hall; [done|].
  simpl in Hall. apply andb_true_iff in Hall as [Hc Hall]. simpl.
  destruct (IH (perform c w) Hall) as [-> ->].
  by apply perform_setter_balance.
Qed.

Lemma setters_keep_balance_witness :
  let calls := [SetHeater (PyInt 7); SetFan (PyFloat f8_9); SetDrum (PyInt 5);
                SetHeater (PyInt 2); SetHeater (PyInt 30)] in
  balance heater AILLIO_CMD_HEATER_INCR AILLIO_CMD_HEATER_DECR
      (self (@performs little_endian_host calls new_object))
    = balance heater AILLIO_CMD_HEATER_INCR AILLIO_CMD_HEATER_DECR
        (self new_object) ∧
  balance fan AILLIO_CMD_FAN_INCR AILLIO_CMD_FAN_DECR
      (self (@performs little_endian_host calls new_object))
    = balance fan AILLIO_CMD_FAN_INCR AILLIO_CMD_FAN_DECR (self new_object).
Proof.
  apply (@setters_keep_balance little_endian_host
           [SetHeater (PyInt 7); SetFan (PyFloat f8_9); SetDrum (PyInt 5);
            SetHeater (PyInt 2); SetHeater (PyInt 30)] new_object).
  reflexivity.
Defined.

(** ** The queue over time *)

Lemma setter_command_shape (cmd : command) :
  setter_command cmd →
  length cmd = 4%nat ∧ Forall (λ b, 0 ≤ b ≤ 255) cmd ∧
  is_status_command cmd = false.
Proof.
  intros [Hin|(v & Hv & ->)].
  - repeat (apply elem_of_cons in Hin as [->|Hin];
              [split_and!; [done|repeat constructor; lia|done]|]).
    by apply elem_of_nil in Hin.
  - split_and!; [done|repeat constructor; lia|].
    unfold is_status_command. apply bool_decide_eq_false_2.
    by intros [[=]|[=]].
Qed.

(** Only commands of the setters are ever queued. *)
Lemma reachable_queue_commands `{Host} (w : world) :
  reachable w → Forall setter_command (command_queue (self w)).
Proof.
  induction 1 as [|w h n traffic _ IH|w c _ IH].
  - constructor.
  - done.
  - destruct (is_setter c) eqn:Hc.
    + destruct (perform_setter_effect c w Hc) as (added & -> & Hadd & _).
      by apply Forall_app.
    + destruct c as [| | |t]; try done. unfold perform.
      destruct (tick_queue_and_wire t w) as (-> & _).
      destruct (command_queue (self w)); [done|].
      by apply Forall_cons_1 in IH as [_ IH].
Qed.

(** X6. In every reachable world each queued command is one the setters
    build: a heater or fan step, or a drum command carrying a value from 1
    to 9. So each is four bytes, every one of them in 0..255, and none is a
    status request. *)
Theorem queue_holds_setter_commands `{Host} (w : world) :
  reachable w →
  Forall (λ cmd, setter_command cmd ∧ length cmd = 4%nat ∧
                 Forall (λ b, 0 ≤ b ≤ 255) cmd ∧
                 cmd ≠ AILLIO_CMD_STATUS1 ∧ cmd ≠ AILLIO_CMD_STATUS2)
    (command_queue (self w)).
Proof.
  intros Hq%reachable_queue_commands.
  eapply Forall_impl; [exact Hq|]. intros cmd Hc. simpl.
  destruct (setter_command_shape cmd Hc) as (Hl & Hb & Hs).
  split_and!; try done; intros ->; by vm_compute in Hs.
Qed.

Lemma queue_holds_setter_commands_witness :
  let w := @performs little_endian_host
             [SetDrum (PyInt 40); SetHeater (PyInt 2);
              UpdateReadings f1000; SetFan (PyInt 0)] new_object in
  Forall (λ cmd, setter_command cmd ∧ length cmd = 4%nat ∧
                 Forall (λ b, 0 ≤ b ≤ 255) cmd ∧
                 cmd ≠ AILLIO_CMD_STATUS1 ∧ cmd ≠ AILLIO_CMD_STATUS2)
    (command_queue (self w)).
Proof.
  apply (@queue_holds_setter_commands little_endian_host).
  cbn [performs]. repeat apply reach_call. apply reach_init.
Defined.

Lemma poll_handle `{Host} (current_time : float) (o : AillioR1Demo) :
  is_Some (usbhandle o) → is_Some (usbhandle (poll current_time o).2).
Proof.
  intros [dev Hdev]. unfold poll, polled, decoded, decoded_head. simpl.
  rewrite Hdev. repeat case_match; simpl; by eexists.
Qed.

Lemma commands_sent_poll (current_time : float) (o : AillioR1Demo) :
  commands_sent (poll_wire current_time o) = [].
Proof.
  unfold poll_wire, poll_traffic.
  destruct (too_soon current_time o); [done|]. by destruct (usbhandle o).
Qed.

(** One tick with an open handle sends the first queued command, if it
    is no status request, and nothing else but status requests. *)
Lemma tick_sends_head `{Host} (t : float) (w : world) :
  is_Some (usbhandle (self w)) →
  Forall (λ cmd, is_status_command cmd = false) (command_queue (self w)) →
  let w' := after (update_readings t) w in
  commands_sent (wire w')
    = commands_sent (wire w) ++ take 1 (command_queue (self w)) ∧
  command_queue (self w') = drop 1 (command_queue (self w)) ∧
  is_Some (usbhandle (self w')).
Proof.
  intros Hh Hq. unfold after. rewrite update_readings_run. simpl.
  split_and!.
  - unfold commands_sent. rewrite !omap_app. fold commands_sent.
    rewrite commands_sent_poll, app_nil_r. f_equal.
    unfold drain_traffic. destruct (command_queue (self w)) as [|cmd q];
      [done|].
    apply Forall_cons_1 in Hq as [Hc _]. destruct Hh as [dev ->]. simpl.
    by rewrite Hc.
  - destruct (poll_frame t (drained (self w))) as (-> & _).
    unfold drained. simpl. by destruct (command_queue (self w)).
  - by apply poll_handle.
Qed.

Lemma ticks_send_in_order `{Host} (times : list float) (w : world) :
  is_Some (usbhandle (self w)) →
  Forall (λ cmd, is_status_command cmd = false) (command_queue (self w)) →
  commands_sent (wire (ticks times w))
    = commands_sent (wire w) ++ take (length times) (command_queue (self w)) ∧
  command_queue (self (ticks times w))
    = drop (length times) (command_queue (self w)) ∧
  is_Some (usbhandle (self (ticks times w))).
Proof.
  revert w. induction times as [|t times IH]; intros w Hh Hq.
  { simpl. by rewrite take_0, drop_0, app_nil_r. }
  destruct (tick_sends_head t w Hh Hq) as (Hs & Hd & Hh').
  simpl. destruct (IH (after (update_readings t) w)) as (-> & -> & Hh'');
    [done| |].
  { rewrite Hd. by apply Forall_drop. }
  rewrite Hs, Hd, <- app_assoc, drop_drop. split_and!; [|done..].
  f_equal. destruct (command_queue (self w)); simpl; [|done].
  by rewrite take_nil.
Qed.

(** X2. In a reachable world with an open handle, any number of ticks, at
    any times, polling or not, writes the queued commands to the device
    first in, first out, one per tick: after [n] ticks the commands sent
    are those sent before followed by the first [n] of the queue, and the
    queue holds the rest. *)
Theorem ticks_drain_first_in_first_out `{Host} (times : list float)
    (w : world) :
  reachable w →
  is_Some (usbhandle (self w)) →
  commands_sent (wire (ticks times w))
    = commands_sent (wire w) ++ take (length times) (command_queue (self w)) ∧
  command_queue (self (ticks times w))
    = drop (length times) (command_queue (self w)).
Proof.
  intros Hq%reachable_queue_commands Hh.
  destruct (ticks_send_in_order times w Hh) as (Hs & Hd & _); [|done].
  eapply Forall_impl; [exact Hq|]. intros cmd Hc.
  by destruct (setter_command_shape cmd Hc) as (_ & _ & ?).
Qed.

Lemma connected_object_reachable `{Host} (dev : usb_device) :
  reachable (connected_object dev).
Proof.
  exact (reach_link {| self := __init__; wire := [] |} (Some dev) 300 []
           reach_init).
Qed.

Lemma ticks_drain_first_in_first_out_witness :
  let w := @perform little_endian_host (SetHeater (PyInt 5))
             (connected_object [Some sample_reply1; Some sample_reply2]) in
  let times := [f1000; f1000_0625; f1000] in
  commands_sent (wire (@ticks little_endian_host times w))
    = commands_sent (wire w) ++ take (length times) (command_queue (self w)) ∧
  command_queue (self (@ticks little_endian_host times w))
    = drop (length times) (command_queue (self w)).
Proof.
  apply (@ticks_drain_first_in_first_out little_endian_host
           [f1000; f1000_0625; f1000]).
  - apply reach_call. apply connected_object_reachable.
  - by eexists.
Defined.

(** ** Without a handle *)

Lemma poll_no_handle `{Host} (current_time : float) (o : AillioR1Demo) :
  usbhandle o = None →
  poll current_time o
    = (false, if too_soon current_time o then o
              else with_last_status_update current_time o) ∧
  poll_wire current_time o = [].
Proof.
  intros Hh. unfold poll, poll_wire, status_buffer, status_replies, polled,
    poll_traffic. simpl. rewrite Hh. simpl.
  by destruct (too_soon current_time o).
Qed.

Lemma tick_no_handle `{Host} (t : float) (w : world) :
  usbhandle (self w) = None →
  let w' := after (update_readings t) w in
  outcome (update_readings t) w = inr false ∧
  usbhandle (self w') = None ∧
  command_queue (self w') = drop 1 (command_queue (self w)) ∧
  wire w' = wire w
    ++ replicate (1 `min` length (command_queue (self w))) (Sleep settle_delay) ∧
  status_model (self w') = status_model (self w) ∧
  last_status_update (self w')
    = (if too_soon t (self w) then last_status_update (self w) else t).
Proof.
  intros Hh. unfold after, outcome. rewrite update_readings_run. simpl.
  destruct (poll_no_handle t (drained (self w))) as [Hp Hw]; [done|].
  change (poll_wire t (drained (self w))) with (poll_wire t (self w)) in Hw.
  rewrite Hp, Hw, app_nil_r. simpl.
  change (too_soon t (drained (self w))) with (too_soon t (self w)).
  unfold drain_traffic. rewrite Hh.
  destruct (too_soon t (self w)); simpl;
    by destruct (command_queue (self w)).
Qed.

Lemma ticks_no_handle `{Host} (times : list float) (w : world) :
  usbhandle (self w) = None →
  usbhandle (self (ticks times w)) = None ∧
  command_queue (self (ticks times w))
    = drop (length times) (command_queue (self w)) ∧
  wire (ticks times w)
    = wire w ++ replicate (length times `min` length (command_queue (self w)))
                  (Sleep settle_delay) ∧
  status_model (self (ticks times w)) = status_model (self w).
Proof.
  revert w. induction times as [|t times IH]; intros w Hh.
  { simpl. by rewrite drop_0, app_nil_r. }
  destruct (tick_no_handle t w Hh) as (_ & Hh' & Hq & Hw & Hm & _).
  simpl. destruct (IH _ Hh') as (-> & -> & -> & ->).
  rewrite Hq, Hw, Hm, drop_drop, <- app_assoc, <- replicate_add.
  split_and!; [done..| |done]. do 2 f_equal.
  rewrite length_drop. destruct (command_queue (self w)); simpl; lia.
Qed.

(** X3. After [disconnect], ticks never touch the USB: each tick still pops
    one queued command and sleeps the settle delay, but nothing is written
    or read, so the popped commands are lost; the handle stays closed and
    the Status Model keeps its values. *)
Theorem ticks_after_disconnect_discard `{Host} (times : list float)
    (w : world) :
  let w' := ticks times (after disconnect w) in
  usbhandle (self w') = None ∧
  command_queue (self w')
    = drop (length times) (command_queue (self w)) ∧
  wire w'
    = wire w ++ replicate (length times `min` length (command_queue (self w)))
                  (Sleep settle_delay) ∧
  status_model (self w') = status_model (self w).
Proof.
  assert (usbhandle (self (after disconnect w)) = None ∧
          command_queue (self (after disconnect w)) = command_queue (self w) ∧
          wire (after disconnect w) = wire w ∧
          status_model (self (after disconnect w)) = status_model (self w))
    as (Hh & Hq & Hw & Hm).
  { unfold after, disconnect. mred. by destruct (usbhandle (self w)) eqn:E. }
  simpl. destruct (ticks_no_handle times _ Hh) as (-> & -> & -> & ->).
  by rewrite Hq, Hw, Hm.
Qed.

(** A tick of a new object that was never connected records the time and
    returns False without any traffic. *)
Example tick_before_connect :
  @update_readings little_endian_host f1000 new_object
  = (inr false,
     {| self := with_last_status_update f1000 __init__; wire := [] |}).
Proof. by vm_compute. Qed.

(** ** A setter and the ticks that follow *)

(** X4. In a reachable world with an empty queue and an open handle,
    [set_heater] followed by as many ticks as the held value is away from
    the clamped target sends exactly that many heater steps, increments
    when the target is above and decrements when it is below, and leaves
    the queue empty. *)
Theorem set_heater_then_ticks `{Host} (w : world) (value : pynum) (v : Z)
    (times : list float) :
  reachable w →
  is_Some (usbhandle (self w)) →
  command_queue (self w) = [] →
  py_int value = inr v →
  ∃ current,
    py_int (heater (self w)) = inr current ∧
    (length times = Z.to_nat (Z.abs (clamp 0 9 v - current)) →
     let w' := ticks times (after (set_heater value) w) in
     command_queue (self w') = [] ∧
     commands_sent (wire w')
       = commands_sent (wire w)
           ++ replicate (length times)
                (if current <? clamp 0 9 v then AILLIO_CMD_HEATER_INCR
                 else AILLIO_CMD_HEATER_DECR)).
Proof.
  intros Hr Hh Hq Hv.
  destruct (reachable_int_valued w Hr) as [(cur & Hc & _)%int_valued_inv _].
  exists cur. split; [done|]. intros Hlen.
  assert (reachable (after (set_heater value) w)) as Hr'
    by apply (reach_call w (SetHeater value) Hr).
  pose proof (set_heater_run value v cur w Hv Hc) as Hrun.
  assert (after (set_heater value) w
          = if clamp 0 9 v =? cur then w
            else {| self := with_heater (PyInt (clamp 0 9 v))
                    (with_command_queue
                       (stepped AILLIO_CMD_HEATER_INCR AILLIO_CMD_HEATER_DECR
                          cur (clamp 0 9 v) (command_queue (self w)))
                       (self w));
                    wire := wire w |}) as Hafter
    by (unfold after; by rewrite Hrun).
  assert (is_Some (usbhandle (self (after (set_heater value) w)))) as Hh'.
  { rewrite Hafter. by destruct (clamp 0 9 v =? cur). }
  destruct (ticks_send_in_order times _ Hh') as (Hs & Hd & _).
  { eapply Forall_impl; [exact (reachable_queue_commands _ Hr')|].
    intros cmd Hcmd.
    by destruct (setter_command_shape cmd Hcmd) as (_ & _ & ?). }
  simpl. rewrite Hs, Hd, Hafter.
  destruct (Z.eqb_spec (clamp 0 9 v) cur) as [E|Hne].
  - rewrite Hq. rewrite E, Z.sub_diag in Hlen. simpl in Hlen.
    destruct times; [|done]. simpl. by rewrite app_nil_r.
  - simpl. unfold stepped. rewrite Hq. simpl.
    replace (Z.to_nat (Z.abs (cur - clamp 0 9 v))) with (length times) by lia.
    rewrite drop_replicate, take_replicate, Nat.sub_diag, Nat.min_id.
    split; [done|]. do 2 f_equal.
    destruct (Z.gtb_spec cur (clamp 0 9 v)), (Z.ltb_spec cur (clamp 0 9 v));
      try done; lia.
Qed.

Lemma set_heater_then_ticks_witness :
  ∃ current,
    py_int (heater (self (connected_object []))) = inr current ∧
    (length [f1000; f1000; f1000_0625; f1000]
       = Z.to_nat (Z.abs (clamp 0 9 4 - current)) →
     let w' := @ticks little_endian_host [f1000; f1000; f1000_0625; f1000]
                 (after (set_heater (PyInt 4)) (connected_object [])) in
     command_queue (self w') = [] ∧
     commands_sent (wire w')
       = commands_sent (wire (connected_object []))
           ++ replicate (length [f1000; f1000; f1000_0625; f1000])
                (if current <? clamp 0 9 4 then AILLIO_CMD_HEATER_INCR
                 else AILLIO_CMD_HEATER_DECR)).
Proof.
  apply (@set_heater_then_ticks little_endian_host (connected_object [])
           (PyInt 4) 4 [f1000; f1000; f1000_0625; f1000]).
  - apply connected_object_reachable.
  - by eexists.
  - reflexivity.
  - reflexivity.
Defined.

(** ** What the object can hold *)

Lemma nth_byte_range (buf : list byte) (i : nat) : 0 ≤ nth_byte buf i ≤ 255.
Proof. rewrite nth_byte_get. apply byte_val_range. Qed.

Lemma byte_valued_PyInt (z : Z) : 0 ≤ z ≤ 255 → byte_valued (PyInt z).
Proof. intros Hz. exists z. split; [apply Z.eqb_refl|done]. Qed.

Lemma label_of_known (st : Z) (prior : string) :
  prior ∈ known_labels.*2 → label_of st prior ∈ known_labels.*2.
Proof.
  intros Hp. unfold label_of, known_labels. simpl.
  repeat (destruct (st =? _); [simpl; repeat constructor|]). done.
Qed.

(** The status update stores in [state] nothing but a byte, and in
    [state_str] nothing but a known label. *)
Lemma poll_state_and_label `{Host} (current_time : float) (o : AillioR1Demo) :
  let o' := (poll current_time o).2 in
  (state o' = state o ∨ ∃ buf, state o' = nth_byte buf 29) ∧
  (state_str o ∈ known_labels.*2 → state_str o' ∈ known_labels.*2).
Proof.
  unfold poll, polled, decoded, decoded_head.
  destruct (too_soon current_time o); [by eauto|].
  destruct (status_buffer o) as [buf|]; simpl.
  2: { destruct (usbhandle o); simpl; by eauto. }
  destruct (accepted buf); simpl.
  2: { destruct (usbhandle o); simpl; by eauto. }
  destruct (_ <? 46)%nat; [|destruct (_ <? 50)%nat];
    destruct (usbhandle o); simpl; split; eauto using label_of_known.
Qed.

(** X7. In every reachable world the label is one of the six known labels,
    so [get_state_string] returns one of OFF, PRE-HEATING, CHARGE, ROASTING,
    COOLING and SHUTDOWN. *)
Theorem label_is_always_known `{Host} (w : world) :
  reachable w →
  state_str (self w) ∈ known_labels.*2 ∧
  get_state_string (self w) ∈ shown_labels.
Proof.
  intros Hr.
  assert (state_str (self w) ∈ known_labels.*2) as Hl.
  { induction Hr as [|w h n traffic _ IH|w c _ IH].
    - by vm_compute; repeat constructor.
    - done.
    - destruct (is_setter c) eqn:Hc.
      + destruct (perform_setter_effect c w Hc) as (_ & _ & _ & _ & Hf).
        destruct Hf as (_ & _ & _ & _ & _ & _ & _ & -> & _). done.
      + destruct c as [| | |t]; try done. unfold perform, after.
        rewrite update_readings_run. simpl.
        by apply poll_state_and_label. }
  split; [done|]. unfold get_state_string.
  unfold known_labels in Hl. simpl in Hl.
  repeat (apply elem_of_cons in Hl as [->|Hl];
            [vm_compute; repeat constructor|]).
  by apply elem_of_nil in Hl.
Qed.

Lemma label_is_always_known_witness :
  let w := @perform little_endian_host (UpdateReadings f1000)
             (connected_object [Some sample_reply1; Some sample_reply2]) in
  state_str (self w) ∈ known_labels.*2 ∧
  get_state_string (self w) ∈ shown_labels.
Proof.
  apply (@label_is_always_known little_endian_host).
  apply reach_call. apply connected_object_reachable.
Defined.

(** The held setpoints and the state fit a byte in every reachable
    world. *)
Lemma reachable_byte_valued `{Host} (w : world) :
  reachable w →
  byte_valued (heater (self w)) ∧ byte_valued (fan (self w)) ∧
  byte_valued (drum (self w)) ∧ 0 ≤ state (self w) ≤ 255.
Proof.
  induction 1 as [|w h n traffic _ IH|w c _ (IHh & IHf & IHd & IHs)].
  - split_and!; [exists 0|exists 1|exists 1|idtac..]; by vm_compute.
  - done.
  - destruct c as [value|value|value|t]; unfold perform.
    + destruct (perform_setter_effect (SetHeater value) w eq_refl)
        as (_ & _ & _ & _ & Hf).
      destruct Hf as (_ & _ & _ & _ & _ & _ & Hs & _).
      unfold perform in Hs. rewrite Hs.
      destruct (set_heater_frame value w) as (-> & -> & [-> | [v ->]]);
        [done|].
      pose proof (clamp_range 0 9 v).
      split_and!; try done; try lia. apply byte_valued_PyInt. lia.
    + destruct (perform_setter_effect (SetFan value) w eq_refl)
        as (_ & _ & _ & _ & Hf).
      destruct Hf as (_ & _ & _ & _ & _ & _ & Hs & _).
      unfold perform in Hs. rewrite Hs.
      destruct (set_fan_frame value w) as (-> & -> & [-> | [v ->]]);
        [done|].
      pose proof (clamp_range 1 12 v).
      split_and!; try done; try lia. apply byte_valued_PyInt. lia.
    + destruct (perform_setter_effect (SetDrum value) w eq_refl)
        as (_ & _ & _ & _ & Hf).
      destruct Hf as (_ & _ & _ & _ & _ & _ & Hs & _).
      unfold perform in Hs. rewrite Hs.
      destruct (set_drum_frame value w) as (-> & -> & [-> | [v ->]]);
        [done|].
      pose proof (clamp_range 1 9 v).
      split_and!; try done; try lia. apply byte_valued_PyInt. lia.
    + unfold after. rewrite update_readings_run. simpl.
      destruct (poll_state_and_label t (drained (self w))) as [Hst _].
      assert (0 ≤ state (poll t (drained (self w))).2 ≤ 255) as Hs'.
      { destruct Hst as [-> | [buf ->]]; [done|apply nth_byte_range]. }
      destruct (poll_setpoints t (drained (self w)))
        as [(-> & -> & ->)|(buf & _ & _ & -> & -> & ->)]; [done|].
      split_and!; try done; try lia; apply byte_valued_PyInt, nth_byte_range.
Qed.

(** X8. In every reachable world the held heater, fan and drum values are
    integers from 0 to 255 and so is the state: the constructor's values, a
    clamped target or a byte of the device. A call of [set_heater] or
    [set_fan] therefore appends at most 255 commands to the queue. *)
Theorem held_values_fit_a_byte `{Host} (w : world) :
  reachable w →
  byte_valued (heater (self w)) ∧ byte_valued (fan (self w)) ∧
  byte_valued (drum (self w)) ∧ 0 ≤ state (self w) ≤ 255 ∧
  (∀ value,
     (length (command_queue (self (after (set_heater value) w)))
        ≤ length (command_queue (self w)) + 255)%nat ∧
     (length (command_queue (self (after (set_fan value) w)))
        ≤ length (command_queue (self w)) + 255)%nat).
Proof.
  intros (Hh & Hf & Hd & Hs)%reachable_byte_valued.
  do 4 (split; [done|]). intros value. unfold after.
  destruct Hh as (h & Hh%py_eqZ_int & Hhr), Hf as (f & Hf%py_eqZ_int & Hfr).
  destruct (py_int value) as [e|v] eqn:Hv.
  { rewrite (proj1 (setter_raises value e w Hv)),
      (proj1 (proj2 (setter_raises value e w Hv))). simpl. lia. }
  rewrite (set_heater_run _ _ _ _ Hv Hh), (set_fan_run _ _ _ _ Hv Hf). simpl.
  pose proof (clamp_range 0 9 v). pose proof (clamp_range 1 12 v).
  split.
  - destruct (clamp 0 9 v =? h); simpl; [lia|].
    unfold stepped. rewrite length_app, length_replicate. lia.
  - destruct (clamp 1 12 v =? f); simpl; [lia|].
    unfold stepped. rewrite length_app, length_replicate. lia.
Qed.

Lemma held_values_fit_a_byte_witness :
  let w := @perform little_endian_host (UpdateReadings f1000)
             (connected_object [Some overrange_reply1; Some sample_reply2]) in
  byte_valued (heater (self w)) ∧ byte_valued (fan (self w)) ∧
  byte_valued (drum (self w)) ∧ 0 ≤ state (self w) ≤ 255 ∧
  (∀ value,
     (length (command_queue (self (after (set_heater value) w)))
        ≤ length (command_queue (self w)) + 255)%nat ∧
     (length (command_queue (self (after (set_fan value) w)))
        ≤ length (command_queue (self w)) + 255)%nat).
Proof.
  apply (@held_values_fit_a_byte little_endian_host).
  apply reach_call. apply connected_object_reachable.
Defined.

(** From a heater byte of 200 the next [set_heater(0)] queues 200
    decrements. *)
Example set_heater_after_overrange :
  let w := @perform little_endian_host (UpdateReadings f1000)
             (connected_object [Some overrange_reply1; Some sample_reply2]) in
  command_queue (self (after (set_heater (PyInt 0)) w))
    = replicate 200 AILLIO_CMD_HEATER_DECR.
Proof. by vm_compute. Qed.

(** ** The return value of a tick *)


(** ** Truncated snapshots *)

(** X15. When the update polls and the concatenated replies carry the
    marker 10 at offset 41 but have fewer than 50 bytes, the update returns
    False and yet has stored the bean temperature, the rate of rise, the
    drum temperature, fan, heater, drum and state from the buffer; the fan
    rpm too when the buffer has at least 46 bytes. The voltage and the
    label keep their values. *)
Theorem truncated_snapshot_is_half_stored `{Host} (current_time : float)
    (w : world) (buf : list byte) :
  too_soon current_time (self w) = false →
  status_buffer (self w) = Some buf →
  byte_at buf 41 = Some 10 →
  (length buf < 50)%nat →
  let o' := self (after (_update_status current_time) w) in
  outcome (_update_status current_time) w = inr false ∧
  bt o' = round1 (float_at buf 36) ∧
  bt_ror o' = round1 (float_at buf 4) ∧
  dt o' = round1 (float_at buf 8) ∧
  fan o' = PyInt (nth_byte buf 26) ∧
  heater o' = PyInt (nth_byte buf 27) ∧
  drum o' = PyInt (nth_byte buf 28) ∧
  state o' = nth_byte buf 29 ∧
  fan_rpm o' = (if (length buf <? 46)%nat then fan_rpm (self w)
                else PyInt (int16_at buf 44)) ∧
  voltage o' = voltage (self w) ∧
  state_str o' = state_str (self w).
Proof.
  intros Hs Hbuf H41 Hlen. unfold outcome, after.
  rewrite update_status_run. simpl. unfold poll. rewrite Hs, Hbuf.
  unfold accepted. rewrite bool_decide_eq_true_2 by done.
  unfold polled, decoded_head. simpl.
  destruct (Nat.ltb_spec (length buf) 46) as [Hl|Hl].
  { by destruct (usbhandle (self w)). }
  destruct (Nat.ltb_spec (length buf) 50) as [Hl'|Hl']; [|lia].
  by destruct (usbhandle (self w)).
Qed.

Lemma truncated_snapshot_is_half_stored_witness :
  let w := roasting [Some cut_reply1; Some cut_reply2] [] in
  let buf := cut_reply1 ++ cut_reply2 in
  let o' := self (after (@_update_status little_endian_host f1000) w) in
  outcome (@_update_status little_endian_host f1000) w = inr false ∧
  bt o' = round1 (@float_at little_endian_host buf 36) ∧
  bt_ror o' = round1 (@float_at little_endian_host buf 4) ∧
  dt o' = round1 (@float_at little_endian_host buf 8) ∧
  fan o' = PyInt (nth_byte buf 26) ∧
  heater o' = PyInt (nth_byte buf 27) ∧
  drum o' = PyInt (nth_byte buf 28) ∧
  state o' = nth_byte buf 29 ∧
  fan_rpm o' = (if (length buf <? 46)%nat then fan_rpm (self w)
                else PyInt (@int16_at little_endian_host buf 44)) ∧
  voltage o' = voltage (self w) ∧
  state_str o' = state_str (self w).
Proof.
  apply (@truncated_snapshot_is_half_stored little_endian_host f1000
           (roasting [Some cut_reply1; Some cut_reply2] [])
           (cut_reply1 ++ cut_reply2));
    [by vm_compute..|vm_compute; lia].
Defined.

(** ** The drum command and its echo *)

(** X5. The drum value round trip: [set_drum] queues a command whose third
    byte is the clamped value; when a later accepted snapshot reports that
    byte at offset 28, the status update leaves the held drum value what
    [set_drum] made it. *)
Theorem drum_command_round_trip `{Host} (current_time : float) (w : world)
    (value : pynum) (v : Z) (buf : list byte) :
  py_int value = inr v →
  let w1 := after (set_drum value) w in
  too_soon current_time (self w1) = false →
  status_buffer (self w1) = Some buf →
  byte_at buf 41 = Some 10 →
  byte_at buf 28 = last (command_queue (self w1)) ≫= (λ cmd, cmd !! 2%nat) →
  last (command_queue (self w1)) = Some (drum_command (clamp 1 9 v)) ∧
  drum (self w1) = PyInt (clamp 1 9 v) ∧
  drum (self (after (_update_status current_time) w1)) = PyInt (clamp 1 9 v).
Proof.
  intros Hv w1. unfold w1, after at 1 2 3 4 5 6.
  rewrite (set_drum_run _ _ _ Hv). simpl. rewrite last_snoc. simpl.
  intros Hs Hbuf H41 H28. split_and!; [done..|].
  unfold after. rewrite update_status_run, (set_drum_run _ _ _ Hv). simpl.
  unfold poll.
  rewrite Hs, Hbuf. unfold accepted. rewrite bool_decide_eq_true_2 by done.
  assert (nth_byte buf 28 = clamp 1 9 v) as <-.
  { unfold nth_byte. by rewrite H28. }
  unfold polled, decoded, decoded_head. simpl.
  destruct (_ <? 46)%nat; [|destruct (_ <? 50)%nat];
    by destruct (usbhandle (self w)).
Qed.

Lemma drum_command_round_trip_witness :
  let w := roasting [Some sample_reply1; Some sample_reply2] [] in
  let w1 := after (set_drum (PyInt 4)) w in
  last (command_queue (self w1)) = Some (drum_command (clamp 1 9 4)) ∧
  drum (self w1) = PyInt (clamp 1 9 4) ∧
  drum (self (after (@_update_status little_endian_host f1000) w1))
    = PyInt (clamp 1 9 4).
Proof.
  apply (@drum_command_round_trip little_endian_host f1000
           (roasting [Some sample_reply1; Some sample_reply2] [])
           (PyInt 4) 4 (sample_reply1 ++ sample_reply2)); by vm_compute.
Defined.

(** ** Connecting and disconnecting *)

Lemma linked_refl (w : world) : linked w w.
Proof.
  exists (usbhandle (self w)), (roast_number (self w)), [].
  destruct w as [o tr]. destruct o. simpl. by rewrite app_nil_r.
Qed.

Lemma linked_trans (w1 w2 w3 : world) :
  linked w1 w2 → linked w2 w3 → linked w1 w3.
Proof.
  intros (h & n & tr & ->) (h' & n' & tr' & ->).
  exists h', n', (tr ++ tr'). simpl. by rewrite app_assoc.
Qed.

Lemma linked_reachable `{Host} (w w' : world) :
  reachable w → linked w w' → reachable w'.
Proof. intros Hr (h & n & tr & ->). by apply reach_link. Qed.

Lemma links_ret {A} (x : A) : links (mret x).
Proof. intros w. apply linked_refl. Qed.

Lemma links_raise {A} (e : exn) : links (@raise A e).
Proof. intros w. apply linked_refl. Qed.

Lemma links_lift {A} (r : exn + A) : links (lift r).
Proof. destruct r; [apply links_raise|apply links_ret]. Qed.

Lemma links_bind {A B} (m : M A) (k : A → M B) :
  links m → (∀ x, links (k x)) → links (m ≫= k).
Proof.
  intros Hm Hk w. specialize (Hm w). unfold after in *. mred.
  destruct (m w) as [[e|x] w1]; simpl in *; [done|].
  eapply linked_trans; [exact Hm|]. apply Hk.
Qed.

Lemma links_try_except {A} (body : M A) (handler : exn → M A) :
  links body → (∀ e, links (handler e)) → links (try_except body handler).
Proof.
  intros Hb Hh w. specialize (Hb w). unfold after, try_except in *.
  destruct (body w) as [[e|x] w1]; simpl in *; [|done].
  eapply linked_trans; [exact Hb|]. apply Hh.
Qed.

Lemma links_assign_usbhandle (h : option usb_device) :
  links (assign (with_usbhandle h)).
Proof.
  intros w. exists h, (roast_number (self w)), [].
  unfold after, assign. simpl. rewrite app_nil_r.
  destruct w as [o tr]. by destruct o.
Qed.

Lemma links_assign_roast_number (n : Z) : links (assign (with_roast_number n)).
Proof.
  intros w. exists (usbhandle (self w)), n, [].
  unfold after, assign. simpl. rewrite app_nil_r.
  destruct w as [o tr]. by destruct o.
Qed.

Lemma links_emit (ev : io_event) : links (emit ev).
Proof.
  intros w. exists (usbhandle (self w)), (roast_number (self w)), [ev].
  unfold after, emit. simpl. destruct w as [o tr]. by destruct o.
Qed.

Lemma links_get_self {B} (k : AillioR1Demo → M B) :
  (∀ o, links (k o)) → links (get_self ≫= k).
Proof. intros Hk. apply links_bind; [|done]. intros w. apply linked_refl. Qed.

Lemma links_send_command (cmd : command) : links (_send_command cmd).
Proof.
  apply links_get_self. intros o.
  destruct (usbhandle o); [apply links_emit|apply links_ret].
Qed.

Lemma links_read_reply (len : nat) : links (_read_reply len).
Proof.
  apply links_get_self. intros o. destruct (usbhandle o); [|apply links_ret].
  apply links_bind; [apply links_emit|]. intros _.
  apply links_bind; [apply links_assign_usbhandle|]. intros _.
  apply links_ret.
Qed.

Lemma links_connect `{Host} (bus : usb_bus) : links (connect bus).
Proof.
  apply links_try_except; [|intros; apply links_ret].
  apply links_bind.
  { apply links_bind; [apply links_lift|]. intros d.
    apply links_bind; [apply links_assign_usbhandle|]. intros _.
    destruct d; [apply links_ret|].
    apply links_bind; [apply links_lift|]. intros d.
    apply links_bind; [apply links_assign_usbhandle|]. intros _.
    apply links_ret. }
  intros [d|]; [|apply links_ret].
  apply links_bind.
  { apply links_bind; [apply links_lift|]. intros active.
    apply links_bind.
    { destruct active; [|apply links_ret].
      apply links_try_except; [apply links_lift|intros; apply links_ret]. }
    intros _. apply links_bind.
    { apply links_try_except; [|intros; apply links_ret].
      apply links_bind; [apply links_lift|]. intros [v|]; [|apply links_ret].
      destruct (negb _); [|apply links_ret].
      apply links_bind; [apply links_lift|]. intros _. apply links_ret. }
    intros [b|]; [apply links_ret|].
    apply links_try_except; [|intros; apply links_ret].
    apply links_bind; [apply links_lift|]. intros _. apply links_ret. }
  intros [b|]; [apply links_ret|].
  apply links_bind; [|intros; apply links_ret].
  apply links_bind; [apply links_send_command|]. intros _.
  apply links_bind; [apply links_read_reply|]. intros reply1.
  apply links_bind.
  { destruct (truthy reply1); [|apply links_ret].
    apply links_bind; [apply links_lift|]. intros _.
    apply links_bind; [apply links_lift|]. intros _. apply links_ret. }
  intros _.
  apply links_bind; [apply links_send_command|]. intros _.
  apply links_bind; [apply links_read_reply|]. intros reply2.
  destruct (truthy reply2); [|apply links_ret].
  apply links_bind; [apply links_lift|]. intros n.
  apply links_assign_roast_number.
Qed.

Lemma links_disconnect : links disconnect.
Proof.
  apply links_get_self. intros o.
  destruct (usbhandle o); [apply links_assign_usbhandle|apply links_ret].
Qed.

Lemma connect_never_raises `{Host} (bus : usb_bus) (w : world) :
  ∃ b, outcome (connect bus) w = inr b.
Proof.
  unfold outcome, connect, try_except.
  match goal with
  | |- context [match ?m w with _ => _ end] =>
      destruct (m w) as [[e|b] w']
  end; simpl; by eexists.
Qed.

(** X11. [connect] never raises, and [connect] and [disconnect] change
    nothing but the handle and the roast number: the queue, the recorded
    poll time and every attribute of the Status Model keep their values,
    whatever the bus and the device do. They lead from reachable worlds to
    reachable worlds. *)
Theorem connecting_changes_only_the_link `{Host} (bus : usb_bus) (w : world) :
  (∃ b, outcome (connect bus) w = inr b) ∧
  outcome disconnect w = inr tt ∧
  (∀ w', w' = after (connect bus) w ∨ w' = after disconnect w →
     command_queue (self w') = command_queue (self w) ∧
     status_model (self w') = status_model (self w) ∧
     last_status_update (self w') = last_status_update (self w) ∧
     status_update_interval (self w') = status_update_interval (self w) ∧
     (reachable w → reachable w')).
Proof.
  split; [apply connect_never_raises|]. split.
  { unfold outcome, disconnect. mred. by destruct (usbhandle (self w)). }
  intros w' Hw'.
  assert (linked w w') as Hl.
  { destruct Hw' as [-> | ->]; [apply links_connect|apply links_disconnect]. }
  split_and!; [| | | |intros Hr; by eapply linked_reachable];
    by destruct Hl as (h & n & tr & ->).
Qed.

Lemma connect_find_chosen (bus : usb_bus) (d : found_device) (w : world) :
  chosen bus d →
  connect_find bus w
    = (inr (Some d),
       {| self := with_usbhandle (Some (endpoint_reads d)) (self w);
          wire := wire w |}).
Proof.
  intros [Hp|[Hp Hr]]; unfold connect_find; rewrite Hp; mred;
    [done|]. rewrite Hr. by mred.
Qed.

Lemma connect_open_run (d : found_device) (w : world) :
  connect_open d w
    = (if opens d then inr None
       else match is_kernel_driver_active d with
            | inl e => inl e
            | inr _ => inr (Some false)
            end,
       w).
Proof.
  unfold connect_open, opens, AILLIO_CONFIGURATION.
  destruct d as [k det cfg setc cl reads]. simpl.
  destruct k as [?|[|]], det as [?|[]], cfg as [?|[v|]], setc as [?|[]],
    cl as [?|[]]; mred; try done; destruct (v =? 1); by mred.
Qed.

Lemma unpack_I_be_slice (reply : list byte) (i : nat) :
  (i + 4 ≤ length reply)%nat →
  unpack_I_be (slice reply i (i + 4)) = inr (be_uint32_at reply i).
Proof.
  intros Hi. unfold unpack_I_be, be_uint32_at. rewrite slice_length.
  replace ((i + 4 - i) `min` (length reply - i))%nat with 4%nat by lia.
  simpl. rewrite slice_seq by lia.
  replace (i + 4 - i)%nat with 4%nat by lia. simpl.
  destruct (lookup_lt_is_Some_2 reply i) as [b0 H0]; [lia|].
  destruct (lookup_lt_is_Some_2 reply (S i)) as [b1 H1]; [lia|].
  destruct (lookup_lt_is_Some_2 reply (S (S i))) as [b2 H2]; [lia|].
  destruct (lookup_lt_is_Some_2 reply (S (S (S i)))) as [b3 H3]; [lia|].
  rewrite H0, H1, H2, H3. simpl.
  unfold nth_byte, byte_at.
  replace (i + 1)%nat with (S i) by lia.
  replace (i + 2)%nat with (S (S i)) by lia.
  replace (i + 3)%nat with (S (S (S i))) by lia.
  rewrite H0, H1, H2, H3. simpl. f_equal. lia.
Qed.


Lemma bind_run {A B} (m : M A) (k : A → M B) (w : world) :
  (m ≫= k) w
    = match m w with
      | (inr x, w') => k x w'
      | (inl e, w') => (inl e, w')
      end.
Proof. done. Qed.

Lemma send_command_open (cmd : command) (dev : usb_device) (w : world) :
  usbhandle (self w) = Some dev →
  _send_command cmd w
    = (inr tt, {| self := self w;
                  wire := wire w ++ [UsbWrite AILLIO_ENDPOINT_WR cmd] |}).
Proof. intros Hh. unfold _send_command. mred. by rewrite Hh. Qed.

Lemma read_reply_open (len : nat) (dev : usb_device) (w : world) :
  usbhandle (self w) = Some dev →
  _read_reply len w
    = (inr (usb_read dev len).1,
       {| self := with_usbhandle (Some (usb_read dev len).2) (self w);
          wire := wire w ++ [UsbRead AILLIO_ENDPOINT_RD len] |}).
Proof. intros Hh. unfold _read_reply. mred. by rewrite Hh. Qed.

(** The info requests on an open handle, by the replies. *)
Lemma connect_info_run `{Host} (dev : usb_device) (w : world) :
  usbhandle (self w) = Some dev →
  let reply1 := default [] (info_reply1 dev) in
  let reply2 := default [] (info_reply2 dev) in
  connect_info w =
    if truthy (info_reply1 dev) && (length reply1 <? 26)%nat then
      (inl StructError,
       {| self := with_usbhandle (Some (usb_read dev 32).2) (self w);
          wire := wire w ++ take 2 info_traffic |})
    else if truthy (info_reply2 dev) then
      if (length reply2 <? 31)%nat then
        (inl StructError,
         {| self := with_usbhandle (Some (after_info dev)) (self w);
            wire := wire w ++ info_traffic |})
      else
        (inr tt,
         {| self := with_roast_number (be_uint32_at reply2 27)
                      (with_usbhandle (Some (after_info dev)) (self w));
            wire := wire w ++ info_traffic |})
    else
      (inr tt,
       {| self := with_usbhandle (Some (after_info dev)) (self w);
          wire := wire w ++ info_traffic |}).
Proof.
  intros Hh reply1 reply2. unfold connect_info.
  rewrite bind_run, (send_command_open _ dev) by done.
  rewrite bind_run, (read_reply_open _ dev) by done.
  fold (info_reply1 dev). rewrite bind_run. cbn [self wire]. fold reply1.
  assert ((if truthy (info_reply1 dev)
           then sn ← lift (unpack_h (slice reply1 0 2));
                firmware ← lift (unpack_h (slice reply1 24 26));
                mret tt
           else mret tt)
            {| self := with_usbhandle (Some (usb_read dev 32).2) (self w);
               wire := (wire w ++ [UsbWrite AILLIO_ENDPOINT_WR AILLIO_CMD_INFO1])
                         ++ [UsbRead AILLIO_ENDPOINT_RD 32] |}
          = (if truthy (info_reply1 dev) && (length reply1 <? 26)%nat
             then inl StructError else inr tt,
             {| self := with_usbhandle (Some (usb_read dev 32).2) (self w);
                wire := wire w ++ take 2 info_traffic |})) as ->.
  { rewrite <- app_assoc. simpl.
    destruct (truthy (info_reply1 dev)); [|done]. simpl.
    change (slice reply1 0 2) with (slice reply1 0 (0 + 2)).
    change (slice reply1 24 26) with (slice reply1 24 (24 + 2)).
    destruct (Nat.ltb_spec (length reply1) 26) as [Hl|Hl].
    - destruct (Nat.ltb_spec (length reply1) 2) as [Hl2|Hl2].
      + by rewrite (unpack_h_short reply1 0) by lia.
      + rewrite (unpack_h_slice reply1 0) by lia.
        by rewrite (unpack_h_short reply1 24) by lia.
    - by rewrite (unpack_h_slice reply1 0), (unpack_h_slice reply1 24) by lia. }
  destruct (truthy (info_reply1 dev) && (length reply1 <? 26)%nat); [done|].
  rewrite bind_run, (send_command_open _ (usb_read dev 32).2) by done.
  rewrite bind_run, (read_reply_open _ (usb_read dev 32).2) by done.
  fold (info_reply2 dev). fold (after_info dev). cbn [self wire].
  rewrite <- !app_assoc. simpl.
  destruct (truthy (info_reply2 dev)); [|done]. fold reply2.
  change (slice reply2 27 31) with (slice reply2 27 (27 + 4)).
  destruct (Nat.ltb_spec (length reply2) 31) as [Hl|Hl].
  - unfold unpack_I_be. rewrite slice_length.
    by destruct (Nat.eqb_spec ((27 + 4 - 27) `min` (length reply2 - 27)) 4);
      [lia|].
  - by rewrite unpack_I_be_slice by lia.
Qed.

(** [connect] on a device that is found, by what the device does. *)
Lemma connect_chosen_run `{Host} (bus : usb_bus) (d : found_device)
    (w : world) :
  chosen bus d →
  let dev := endpoint_reads d in
  let found := with_usbhandle (Some dev) (self w) in
  connect bus w =
    if negb (opens d) then (inr false, {| self := found; wire := wire w |})
    else if info1_short dev then
      (inr false,
       {| self := with_usbhandle (Some (usb_read dev 32).2) (self w);
          wire := wire w ++ take 2 info_traffic |})
    else if info2_short dev then
      (inr false,
       {| self := with_usbhandle (Some (after_info dev)) (self w);
          wire := wire w ++ info_traffic |})
    else
      (inr true,
       {| self := (if truthy (info_reply2 dev)
                   then with_roast_number
                          (be_uint32_at (default [] (info_reply2 dev)) 27)
                   else id)
                    (with_usbhandle (Some (after_info dev)) (self w));
          wire := wire w ++ info_traffic |}).
Proof.
  intros Hd dev found. unfold connect, try_except.
  rewrite bind_run, (connect_find_chosen bus d w Hd).
  rewrite bind_run, connect_open_run.
  destruct (opens d); simpl.
  2: { by destruct (is_kernel_driver_active d). }
  rewrite bind_run, (connect_info_run dev) by done. cbn [self wire].
  unfold info1_short, info2_short. fold dev.
  destruct (truthy (info_reply1 dev) && _); [done|].
  destruct (truthy (info_reply2 dev)); simpl; [|done].
  by destruct (_ <? 31)%nat.
Qed.





(** The sample device reports 300 roasts. *)
Example connect_reads_roast_number :
  let w := after (@connect little_endian_host
                    (rev3_bus [Some info_reply; Some info_reply])) new_object in
  roast_number (self w) = 300 ∧ usbhandle (self w) = Some [].
Proof. by vm_compute. Qed.



(** After such a failed [connect] a tick writes the queued command to the
    device all the same. *)
Example tick_after_failed_connect :
  let bus := {| find_primary := inr (Some (busy_device []));
                find_rev3 := inr None |} in
  let w := after (set_drum (PyInt 5))
             (after (@connect little_endian_host bus) new_object) in
  wire (after (@update_readings little_endian_host f1000) w)
    = UsbWrite AILLIO_ENDPOINT_WR (drum_command 5)
        :: Sleep settle_delay :: round_trip_traffic.
Proof. by vm_compute. Qed.

(** X13. When the device is found and opened but an info reply is there
    and too short (the first under 26 bytes, the second under 31),
    unpacking raises inside [connect], which returns False with the handle
    open and the interface claimed; the roast number keeps its value, and
    after a short first reply the second request is never sent. *)
Theorem connect_short_info_reply `{Host} (bus : usb_bus) (d : found_device)
    (w : world) :
  chosen bus d →
  opens d = true →
  info1_short (endpoint_reads d) || info2_short (endpoint_reads d) = true →
  let w' := after (connect bus) w in
  outcome (connect bus) w = inr false ∧
  is_Some (usbhandle (self w')) ∧
  roast_number (self w') = roast_number (self w) ∧
  wire w' = wire w ++ (if info1_short (endpoint_reads d)
                       then take 2 info_traffic else info_traffic).
Proof.
  intros Hd Ho Hshort. unfold outcome, after.
  rewrite (connect_chosen_run bus d w Hd), Ho. simpl.
  destruct (info1_short (endpoint_reads d)); simpl in *.
  { split_and!; try done. }
  rewrite Hshort. simpl. split_and!; try done.
Qed.

Lemma connect_short_info_reply_witness :
  let bus := rev3_bus [Some (take 5 info_reply)] in
  let w' := after (@connect little_endian_host bus) new_object in
  outcome (@connect little_endian_host bus) new_object = inr false ∧
  is_Some (usbhandle (self w')) ∧
  roast_number (self w') = roast_number (self new_object) ∧
  wire w' = wire new_object
              ++ (if info1_short [Some (take 5 info_reply)]
                  then take 2 info_traffic else info_traffic).
Proof.
  apply (@connect_short_info_reply little_endian_host
           (rev3_bus [Some (take 5 info_reply)])
           (plugged [Some (take 5 info_reply)]) new_object);
    [by right|reflexivity..].
Defined.
